(** * The MCP client of localAI (mcpclient.py): model and properties

    A shallow embedding of [mcpclient.py]: the HTTP helpers with their
    retry loops, tool discovery with its schema-version cache, argument
    validation and the agent loop.  Python values are JSON trees; the
    objects whose identity matters (the cached tool lists and the tool
    descriptors) live in an explicit heap; exceptions are a result type. *)

From Stdlib Require Import ZArith QArith Bool.
From stdpp Require Import base strings list gmap.

Close Scope Q_scope.
Open Scope string_scope.
Open Scope nat_scope.
Open Scope list_scope.
Set Warnings "-register-all".

(** ** Python values *)

(** A Python [float]: a finite double, kept as its exact rational value,
    or one of the three values that [json.loads] reads from the texts
    NaN, Infinity and -Infinity. *)
Inductive pyfloat :=
| Finite (q : Q)
| NaN
| Infinity
| NegInfinity.

(** What [json.loads] and [Response.json] build: [None], [bool], [int],
    [float], [str], [list], and [dict] with string keys in insertion
    order.  Strings are sequences of characters of the type [ascii]. *)
Inductive json :=
| JNull
| JBool (b : bool)
| JInt (n : Z)
| JFloat (x : pyfloat)
| JStr (s : string)
| JArr (items : list json)
| JObj (members : list (string * json)).

(** Exceptions the client meets. *)
Inductive exn :=
| ConnectionError
| Timeout
| HTTPError (status : Z)
| JSONDecodeError
| UnboundLocalError
| AttributeError
| TypeError
| ValueError
| KeyError (key : string)
| ValidationError (message : string)
| SchemaError
| EOFError
| RecursionError.

Inductive result (A : Type) :=
| Return (a : A)
| Raise (e : exn).
Arguments Return {A} a.
Arguments Raise {A} e.

Definition raises {A} (r : result A) : bool :=
  match r with Return _ => false | Raise _ => true end.

(** [d.get(key)] on the members of a dict. *)
Fixpoint dict_get (key : string) (members : list (string * json)) : option json :=
  match members with
  | [] => None
  | (k, v) :: rest => if String.eqb k key then Some v else dict_get key rest
  end.

(** [d[key] = value]: overwrite in place, or append a new key. *)
Fixpoint dict_set (key : string) (value : json) (members : list (string * json))
  : list (string * json) :=
  match members with
  | [] => [(key, value)]
  | (k, v) :: rest =>
      if String.eqb k key then (k, value) :: rest
      else (k, v) :: dict_set key value rest
  end.

(** [d.get(key)] with Python's [None] for a missing key. *)
Definition get_or_none (key : string) (members : list (string * json)) : json :=
  default JNull (dict_get key members).

(** [bool], [int] and [float] compare by numeric value. *)
Definition number_of (v : json) : option pyfloat :=
  match v with
  | JBool b => Some (Finite (if b then 1%Q else 0%Q))
  | JInt n => Some (Finite (inject_Z n))
  | JFloat x => Some x
  | _ => None
  end.

(** [==] on numbers: by value, an infinity equal to itself only, and
    NaN equal to nothing. *)
Definition float_eq (x y : pyfloat) : bool :=
  match x, y with
  | Finite p, Finite q => Qeq_bool p q
  | Infinity, Infinity => true
  | NegInfinity, NegInfinity => true
  | _, _ => false
  end.

Definition is_nan (v : json) : bool :=
  match v with JFloat NaN => true | _ => false end.

(** Python's [==] on these values: dicts compare regardless of order.
    A list or a dict compares two items by identity before it compares
    them by [==], and the decoder gives one and the same object for every
    NaN it reads: inside a list or a dict NaN equals NaN, on its own it
    equals nothing. *)
Fixpoint py_eq (a b : json) {struct a} : bool :=
  match a, b with
  | JNull, JNull => true
  | JStr s, JStr t => String.eqb s t
  | JArr xs, JArr ys =>
      (fix all2 (xs ys : list json) : bool :=
         match xs, ys with
         | [], [] => true
         | x :: xs', y :: ys' =>
             (is_nan x && is_nan y || py_eq x y) && all2 xs' ys'
         | _, _ => false
         end) xs ys
  | JObj ms, JObj ns =>
      Nat.eqb (length ms) (length ns) &&
      (fix each (ms : list (string * json)) : bool :=
         match ms with
         | [] => true
         | (k, v) :: ms' =>
             match dict_get k ns with
             | Some w => is_nan v && is_nan w || py_eq v w
             | None => false
             end && each ms'
         end) ms
  | _, _ =>
      match number_of a, number_of b with
      | Some p, Some q => float_eq p q
      | _, _ => false
      end
  end.

(** Truth value testing ([if x], [not x]). *)
Definition truthy (v : json) : bool :=
  match v with
  | JNull => false
  | JBool b => b
  | JInt n => negb (n =? 0)%Z
  | JFloat (Finite q) => negb (Qeq_bool q 0%Q)
  | JFloat _ => true
  | JStr s => negb (String.eqb s "")
  | JArr items => negb (Nat.eqb (length items) 0)
  | JObj members => negb (Nat.eqb (length members) 0)
  end.

(** ** HTTP helpers *)

Definition MAX_RETRIES : nat := 2.

(** A response as the helpers use it: the status code and what
    [r.json()] gives, [None] when it raises. *)
Record response := { status : Z; body : option json }.

(** What one [requests.get] or [requests.post] call does: it raises
    (no response object), or it returns a response. *)
Inductive attempt :=
| NoResponse (e : exn)
| Response (r : response).

(** [r.raise_for_status()] raises on 4xx and 5xx. *)
Definition raise_for_status (r : response) : result unit :=
  if ((400 <=? status r) && (status r <? 600))%Z
  then Raise (HTTPError (status r)) else Return tt.

(** [r.json()]. *)
Definition response_json (r : response) : result json :=
  match body r with
  | Some j => Return j
  | None => Raise JSONDecodeError
  end.

(** The body of the [try]: request, [raise_for_status], [return r.json()]. *)
Definition try_request (a : attempt) : result json :=
  match a with
  | NoResponse e => Raise e
  | Response r =>
      match raise_for_status r with
      | Raise e => Raise e
      | Return _ => response_json r
      end
  end.

(** The loop of [http_get] over [range(MAX_RETRIES + 1)]; [net] gives the
    outcome of the request made at each attempt. *)
Fixpoint http_get_loop (net : nat → attempt) (attempts : list nat) : result json :=
  match attempts with
  | [] => Return JNull
  | attempt :: rest =>
      match try_request (net attempt) with
      | Return j => Return j
      | Raise e =>
          if (attempt <? MAX_RETRIES)%nat then http_get_loop net rest
          else Raise e
      end
  end.

Definition http_get (net : nat → attempt) : result json :=
  http_get_loop net (seq 0 (MAX_RETRIES + 1)).

(** The variable [r] after the request of an attempt: rebound when the
    request returned, left as it was when the request raised. *)
Definition rebind (r : option response) (a : attempt) : option response :=
  match a with
  | NoResponse _ => r
  | Response x => Some x
  end.

(** The last handler of [http_post]: [try: return r.json() except: raise]. *)
Definition salvage (r : option response) : result json :=
  match r with
  | None => Raise UnboundLocalError
  | Some x => response_json x
  end.

Fixpoint http_post_loop (net : nat → attempt) (attempts : list nat)
    (r : option response) : result json :=
  match attempts with
  | [] => Return JNull
  | attempt :: rest =>
      let r := rebind r (net attempt) in
      match try_request (net attempt) with
      | Return j => Return j
      | Raise _ =>
          if (attempt <? MAX_RETRIES)%nat then http_post_loop net rest r
          else salvage r
      end
  end.

Definition http_post (net : nat → attempt) : result json :=
  http_post_loop net (seq 0 (MAX_RETRIES + 1)) None.

(** ** Tool discovery and the cache *)

(** The objects discovery shares by reference live in a heap: a list
    object holds the locations of its elements, any other value sits in a
    cell of its own.  Allocation appends, so a location is an index. *)
Definition loc := nat.

Inductive obj :=
| OList (items : list loc)
| OVal (v : json).

(** A cache entry, the dict with keys "version" and "tools"; the tools
    are held by reference. *)
Record entry := { version : json; tools : loc }.

Inductive message :=
| WarnInitialize (server_url : string) (e : exn)
| WarnListTools (server_url : string) (e : exn)
| InfoUsingCached (server_url : string) (v : json)
| InfoCached (server_url : string) (v : json)
| NoToolsDiscovered
| PromptBuilt (names : list json)
| TypeExitToQuit
| LlmCallFailed (e : exn)
| Assistant (text : json)
| NoSuitableTool
| UnknownAction (decision : json)
| IncompleteToolCall (decision : json)
| ToolNotFound
| ValidationFailed (err : string)
| ToolCallFailed (e : exn)
| ToolResult (r : json)
| FollowupFailed (e : exn)
| RawToolResult (r : json).

(** The module-level [tool_cache], the heap, and what was printed. *)
Record state := {
  tool_cache : gmap string entry;
  heap : list obj;
  console : list message
}.

Definition initial_state : state :=
  {| tool_cache := ∅; heap := []; console := [] |}.

Definition print (m : message) (st : state) : state :=
  {| tool_cache := tool_cache st; heap := heap st; console := console st ++ [m] |}.

(** One configured server during one discovery pass: its url and what
    the network answers to the requests made to "/initialize" and to
    "/list_tools". *)
Record server := {
  url : string;
  initialize : nat → attempt;
  list_tools : nat → attempt
}.

Definition alloc (o : obj) (h : list obj) : list obj * loc :=
  (h ++ [o], length h).

Fixpoint alloc_items (items : list json) (h : list obj) : list obj * list loc :=
  match items with
  | [] => (h, [])
  | t :: rest =>
      let '(h, l) := alloc (OVal t) h in
      let '(h, ls) := alloc_items rest h in
      (h, l :: ls)
  end.

(** A freshly parsed value: an array becomes a new list object over new
    cells, anything else a new cell. *)
Definition alloc_json (v : json) (h : list obj) : list obj * loc :=
  match v with
  | JArr items =>
      let '(h, ls) := alloc_items items h in
      alloc (OList ls) h
  | _ => alloc (OVal v) h
  end.

(** The value in a cell; a location outside the heap does not occur in a
    well-formed state and reads as [None]. *)
Definition cell (h : list obj) (l : loc) : json :=
  match h !! l with
  | Some (OVal v) => v
  | _ => JNull
  end.

(** The value an object stands for. *)
Definition value_at (h : list obj) (l : loc) : json :=
  match h !! l with
  | Some (OList ls) => JArr (cell h <$> ls)
  | Some (OVal v) => v
  | None => JNull
  end.

Fixpoint characters (s : string) : list json :=
  match s with
  | EmptyString => []
  | String c rest => JStr (String c EmptyString) :: characters rest
  end.

(** [for t in v] on a value: a list gives its items, a string its
    characters, a dict its keys; the rest is not iterable. *)
Definition iter_values (v : json) : result (list json) :=
  match v with
  | JArr items => Return items
  | JStr s => Return (characters s)
  | JObj members => Return (JStr <$> members.*1)
  | _ => Raise TypeError
  end.

(** [for t in tools] on the object [tools] refers to. *)
Definition elements (h : list obj) (tools : loc) : result (list json) :=
  match h !! tools with
  | Some (OList ls) => Return (cell h <$> ls)
  | Some (OVal v) => iter_values v
  | None => Raise TypeError
  end.

(** One item of the sequence given to [dict], read as a key and a value:
    a list of two items, a string of two characters or a dict of two
    keys.  An item that is not iterable raises [TypeError], one of
    another length [ValueError]. *)
Definition pair_of (item : json) : result (json * json) :=
  match iter_values item with
  | Raise e => Raise e
  | Return [k; v] => Return (k, v)
  | Return _ => Raise ValueError
  end.

(** [d[k] = v] while [dict] fills [d]: a list or a dict is unhashable
    and raises [TypeError].  A key that is [None] or a number is stored
    by Python; the dicts of this model have string keys, and such an
    entry is left out.  The program reads a descriptor through string
    keys and through its truth value, which the member "_server_url"
    settles, so the entry left out is one it cannot reach. *)
Definition add_pair (k v : json) (d : list (string * json))
  : result (list (string * json)) :=
  match k with
  | JStr key => Return (dict_set key v d)
  | JArr _ => Raise TypeError
  | JObj _ => Raise TypeError
  | _ => Return d
  end.

(** [dict] on a sequence: the items are read in order, each as a pair,
    and a later pair overwrites an earlier one with the same key. *)
Fixpoint dict_of_pairs (items : list json) (d : list (string * json))
  : result (list (string * json)) :=
  match items with
  | [] => Return d
  | item :: rest =>
      match pair_of item with
      | Raise e => Raise e
      | Return (k, v) =>
          match add_pair k v d with
          | Raise e => Raise e
          | Return d => dict_of_pairs rest d
          end
      end
  end.

(** [dict(t)]: a dict is copied key by key; a list is read as a sequence
    of pairs, and so is a string, whose items are its characters (each of
    length one, so that only the empty string gives a dict); a scalar is
    not iterable and raises [TypeError]. *)
Definition dict_of (t : json) : result (list (string * json)) :=
  match t with
  | JObj members => Return members
  | JArr items => dict_of_pairs items []
  | JStr s => dict_of_pairs (characters s) []
  | _ => Raise TypeError
  end.

Definition tag (server_url : string) (members : list (string * json)) : json :=
  JObj (dict_set "_server_url" (JStr server_url) members).

(** The loop [for t in tools: t_copy = dict(t); t_copy["_server_url"] = url;
    discovered.append(t_copy)]. *)
Fixpoint tag_loop (server_url : string) (ts : list json) (h : list obj)
    (discovered : list loc) : result (list loc) * list obj :=
  match ts with
  | [] => (Return discovered, h)
  | t :: rest =>
      match dict_of t with
      | Raise e => (Raise e, h)
      | Return members =>
          let '(h, t_copy) := alloc (OVal (JObj members)) h in
          let h := <[t_copy := OVal (tag server_url members)]> h in
          tag_loop server_url rest h (discovered ++ [t_copy])
      end
  end.

(** The second [try] of the loop body: the catalog request and the two
    [tools_resp.get] calls, which need [tools_resp] to be a dict. *)
Definition fetch_catalog (s : server) : result (json * json) :=
  match http_get (list_tools s) with
  | Raise e => Raise e
  | Return (JObj tools_resp) =>
      Return (default (JArr []) (dict_get "tools" tools_resp),
              get_or_none "tool_schema_version" tools_resp)
  | Return _ => Raise AttributeError
  end.

(** [cached and cached.get("version") == version]: an entry is a dict
    with two keys, hence true. *)
Definition cache_hit (cached : option entry) (v : json) : bool :=
  match cached with
  | Some c => py_eq (version c) v
  | None => false
  end.

(** The body of the loop of [discover_tools] for one server. *)
Definition discover_server (s : server) (st : state) (discovered : list loc)
  : result (list loc) * state :=
  match http_get (initialize s) with
  | Raise e => (Return discovered, print (WarnInitialize (url s) e) st)
  | Return _ =>
      match fetch_catalog s with
      | Raise e => (Return discovered, print (WarnListTools (url s) e) st)
      | Return (fetched, v) =>
          let '(h, fresh) := alloc_json fetched (heap st) in
          let cached := tool_cache st !! url s in
          let '(tools, cache, m) :=
            if cache_hit cached v
            then (from_option tools fresh cached, tool_cache st,
                  InfoUsingCached (url s) v)
            else (fresh,
                  <[url s := {| version := v; tools := fresh |}]> (tool_cache st),
                  InfoCached (url s) v) in
          let console := console st ++ [m] in
          match elements h tools with
          | Raise e =>
              (Raise e, {| tool_cache := cache; heap := h; console := console |})
          | Return ts =>
              let '(r, h) := tag_loop (url s) ts h discovered in
              (r, {| tool_cache := cache; heap := h; console := console |})
          end
      end
  end.

Fixpoint discover_loop (server_urls : list server) (st : state)
    (discovered : list loc) : result (list loc) * state :=
  match server_urls with
  | [] => (Return discovered, st)
  | s :: rest =>
      match discover_server s st discovered with
      | (Raise e, st) => (Raise e, st)
      | (Return discovered, st) => discover_loop rest st discovered
      end
  end.

Definition discover_tools (server_urls : list server) (st : state)
  : result (list loc) * state :=
  discover_loop server_urls st [].

(** ** The agent loop *)

(** Library functions the loop calls: [json.loads], which returns a
    value or raises, [JSONDecodeError] on a text it rejects and
    [RecursionError] or [ValueError] on some it cannot handle,
    [json.dumps] with its [ensure_ascii] flag, [str],
    [str.strip], [str.lower], and [jsonschema.validate(instance, schema)],
    which raises [ValidationError] with a message, or another exception
    for a schema it cannot use. *)
Record runtime := {
  json_loads : string → result json;
  json_dumps : bool → json → string;
  py_str : json → string;
  strip : string → string;
  lower : string → string;
  validate : json → json → result unit
}.

Inductive event :=
| Say (m : message)
| AskModel (system_prompt user_text : string) (temperature : Q)
| CallTool (server_url tool_name args : json).

(** How a turn of the [while True] loop ends: [continue] or the end of
    the body, [break], or an exception that leaves the loop. *)
Inductive control :=
| Continue
| Break
| Crash (e : exn).

Inductive exit :=
| Exited
| Crashed (e : exn).

(** What the outside world does during one turn: the line [input] reads,
    the answer to the chat-completion request, the answers to the
    "/call_tool" requests, and the answer to the follow-up
    chat-completion request. *)
Record turn := {
  line : string;
  llm : attempt;
  tool_call : nat → attempt;
  followup : attempt
}.

Definition nl : string := String (Ascii.ascii_of_nat 10) EmptyString.
Definition dq : string := String (Ascii.ascii_of_nat 34) EmptyString.

Fixpoint join (sep : string) (parts : list string) : string :=
  match parts with
  | [] => EmptyString
  | [x] => x
  | x :: rest => String.append x (String.append sep (join sep rest))
  end.

(** [t[key]]. *)
Definition subscript (t : json) (key : string) : result json :=
  match t with
  | JObj members =>
      match dict_get key members with
      | Some v => Return v
      | None => Raise (KeyError key)
      end
  | _ => Raise TypeError
  end.

(** [t.get(key, fallback)]. *)
Definition get_default (t : json) (key : string) (fallback : json) : result json :=
  match t with
  | JObj members => Return (default fallback (dict_get key members))
  | _ => Raise AttributeError
  end.

Fixpoint mapM {A B} (f : A → result B) (l : list A) : result (list B) :=
  match l with
  | [] => Return []
  | x :: rest =>
      match f x with
      | Raise e => Raise e
      | Return y =>
          match mapM f rest with
          | Raise e => Raise e
          | Return ys => Return (y :: ys)
          end
      end
  end.

Section Agent.
Variable rt : runtime.

(** The four lines and the blank line written for one tool. *)
Definition tool_lines (t : json) : result (list string) :=
  match get_default t "args_schema" (JObj []) with
  | Raise e => Raise e
  | Return args_schema =>
  match get_default t "result_schema" (JObj []) with
  | Raise e => Raise e
  | Return result_schema =>
  match subscript t "name" with
  | Raise e => Raise e
  | Return name =>
  match subscript t "_server_url" with
  | Raise e => Raise e
  | Return server_url =>
  match get_default t "description" (JStr "") with
  | Raise e => Raise e
  | Return description =>
      Return [
        join "" ["- "; py_str rt name; "  (server: "; py_str rt server_url; ")"];
        join "" ["  Description: "; py_str rt description];
        join "" ["  Args schema: "; json_dumps rt false args_schema];
        join "" ["  Returns: "; json_dumps rt false result_schema];
        ""]
  end end end end end.

Definition build_system_prompt_from_tools (tools : list json) : result string :=
  match mapM tool_lines tools with
  | Raise e => Raise e
  | Return per_tool =>
      Return (join nl (
        [ "You are an assistant that can call external tools (MCP servers).";
          "You MUST respond in one of two ways:";
          "1) If the user's request can be answered directly, reply in plain text.";
          "2) If you need a tool, reply ONLY with strict JSON in this exact shape:";
          join dq ["{"; "action"; ":"; "use_tool"; ","; "tool"; ":"; "<tool_name>";
                   ","; "server_url"; ":"; "<server_url>"; ","; "args"; ":{...}}"];
          "";
          "Available tools (name, server, description, args schema):" ]
        ++ concat per_tool
        ++ [ join "" [
               "RULES:"; nl;
               "- Return EXACT JSON (no surrounding text) when using a tool."; nl;
               "- Use the provided argument names and types from the schema."; nl;
               "- If you cannot find a suitable tool, return: ";
               join dq ["{"; "action"; ":"; "none"; "}."] ] ]))
  end.

(** [parsed["choices"][0]["message"]["content"]], [None] when any step
    raises. *)
Definition item (key : string) (v : json) : option json :=
  match v with
  | JObj members => dict_get key members
  | _ => None
  end.

Definition first_item (v : json) : option json :=
  match v with
  | JArr (x :: _) => Some x
  | JStr (String c _) => Some (JStr (String c EmptyString))
  | _ => None
  end.

Definition content_of (parsed : json) : option json :=
  match item "choices" parsed with
  | None => None
  | Some choices =>
      match first_item choices with
      | None => None
      | Some choice =>
          match item "message" choice with
          | None => None
          | Some message => item "content" message
          end
      end
  end.

(** [call_llm]: one request, no retry. *)
Definition call_llm (reply : attempt) : result json :=
  match reply with
  | NoResponse e => Raise e
  | Response resp =>
      match raise_for_status resp with
      | Raise e => Raise e
      | Return _ =>
          match response_json resp with
          | Raise e => Raise e
          | Return parsed =>
              Return (default (JStr (json_dumps rt true parsed)) (content_of parsed))
          end
      end
  end.

(** [json.loads(llm_reply)]: a [str] is parsed, any other value raises
    [TypeError]. *)
Definition loads (llm_reply : json) : result json :=
  match llm_reply with
  | JStr s => json_loads rt s
  | _ => Raise TypeError
  end.

Definition default_args_schema : json := JObj [("type", JStr "object")].

Definition validate_args_against_tool (tool args : json) : result (option string) :=
  match get_default tool "args_schema" default_args_schema with
  | Raise e => Raise e
  | Return schema =>
      match validate rt args schema with
      | Return _ => Return None
      | Raise (ValidationError message) => Return (Some message)
      | Raise e => Raise e
      end
  end.

(** [if err] on what [validate_args_against_tool] returned. *)
Definition truthy_message (err : option string) : bool :=
  match err with
  | None => false
  | Some message => negb (String.eqb message "")
  end.

(** [next((t for t in tools if t["name"]==tool_name and
    t["_server_url"]==server_url), None)]. *)
Fixpoint find_tool (tools : list json) (tool_name server_url : json)
  : result (option json) :=
  match tools with
  | [] => Return None
  | t :: rest =>
      match subscript t "name" with
      | Raise e => Raise e
      | Return name =>
          if py_eq name tool_name then
            match subscript t "_server_url" with
            | Raise e => Raise e
            | Return u =>
                if py_eq u server_url then Return (Some t)
                else find_tool rest tool_name server_url
            end
          else find_tool rest tool_name server_url
      end
  end.

Definition is_quit (user_input : string) : bool :=
  let lowered := lower rt user_input in
  String.eqb lowered "quit" || String.eqb lowered "exit".

Definition feedback_prompt (user_input : string) (tool_name tool_result : json)
  : string :=
  join "" ["User asked: "; user_input; nl;
           "Tool "; py_str rt tool_name; " returned: ";
           json_dumps rt false tool_result; nl;
           "Provide a concise reply."].

(** The part of the loop body after the tool call returned. *)
Definition summarize (system_prompt user_input : string)
    (tool_name tool_result : json) (t : turn) : list event :=
  let feedback := feedback_prompt user_input tool_name tool_result in
  [Say (ToolResult tool_result); AskModel system_prompt feedback (4 # 10)] ++
  match call_llm (followup t) with
  | Return final_reply => [Say (Assistant final_reply)]
  | Raise e => [Say (FollowupFailed e); Say (RawToolResult tool_result)]
  end.

(** The part of the loop body once [decision] is a dict whose action is
    "use_tool". *)
Definition use_tool (tools : list json) (system_prompt user_input : string)
    (decision : list (string * json)) (t : turn) : list event * control :=
  let tool_name := get_or_none "tool" decision in
  let server_url := get_or_none "server_url" decision in
  let args := default (JObj []) (dict_get "args" decision) in
  if negb (truthy tool_name) || negb (truthy server_url)
  then ([Say (IncompleteToolCall (JObj decision))], Continue)
  else
    match find_tool tools tool_name server_url with
    | Raise e => ([], Crash e)
    | Return found =>
        if negb (truthy (default JNull found))
        then ([Say ToolNotFound], Continue)
        else
          match validate_args_against_tool (default JNull found) args with
          | Raise e => ([], Crash e)
          | Return err =>
              if truthy_message err
              then ([Say (ValidationFailed (default "" err))], Continue)
              else
                match http_post (tool_call t) with
                | Raise e =>
                    ([CallTool server_url tool_name args; Say (ToolCallFailed e)],
                     Continue)
                | Return tool_result =>
                    (CallTool server_url tool_name args
                       :: summarize system_prompt user_input tool_name tool_result t,
                     Continue)
                end
          end
    end.

(** The part of the loop body after [json.loads] returned. *)
Definition decide_action (tools : list json) (system_prompt user_input : string)
    (decision : json) (t : turn) : list event * control :=
  match decision with
  | JObj d =>
      let action := get_or_none "action" d in
      if py_eq action (JStr "none")
      then ([Say NoSuitableTool], Continue)
      else if negb (py_eq action (JStr "use_tool"))
      then ([Say (UnknownAction decision)], Continue)
      else use_tool tools system_prompt user_input d t
  | _ => ([], Crash AttributeError)
  end.

(** One pass through the body of [while True]. *)
Definition agent_turn (tools : list json) (system_prompt : string) (t : turn)
  : list event * control :=
  let user_input := strip rt (line t) in
  if is_quit user_input then ([], Break)
  else
    let ask := AskModel system_prompt user_input 0 in
    match call_llm (llm t) with
    | Raise e => ([ask; Say (LlmCallFailed e)], Continue)
    | Return llm_reply =>
        match loads llm_reply with
        | Raise JSONDecodeError => ([ask; Say (Assistant llm_reply)], Continue)
        | Raise e => ([ask], Crash e)
        | Return decision =>
            let '(evs, c) :=
              decide_action tools system_prompt user_input decision t in
            (ask :: evs, c)
        end
    end.

(** The [while True] loop over the turns the outside world provides;
    when they run out, [input] raises [EOFError]. *)
Fixpoint session (tools : list json) (system_prompt : string) (turns : list turn)
  : list event * exit :=
  match turns with
  | [] => ([], Crashed EOFError)
  | t :: rest =>
      match agent_turn tools system_prompt t with
      | (evs, Continue) =>
          let '(later, x) := session tools system_prompt rest in
          (evs ++ later, x)
      | (evs, Break) => (evs, Exited)
      | (evs, Crash e) => (evs, Crashed e)
      end
  end.

(** [agent_loop]: what it prints and calls, and how it ends. *)
Definition agent_loop (server_urls : list server) (st : state) (turns : list turn)
  : list event * exit :=
  match discover_tools server_urls st with
  | (Raise e, st) => (Say <$> console st, Crashed e)
  | (Return discovered, st) =>
      let said := Say <$> console st in
      let tools := cell (heap st) <$> discovered in
      if negb (truthy (JArr tools))
      then (said ++ [Say NoToolsDiscovered], Exited)
      else
        match build_system_prompt_from_tools tools with
        | Raise e => (said, Crashed e)
        | Return system_prompt =>
            match mapM (λ t, subscript t "name") tools with
            | Raise e => (said, Crashed e)
            | Return names =>
                let '(evs, x) := session tools system_prompt turns in
                (said ++ [Say (PromptBuilt names); Say TypeExitToQuit] ++ evs, x)
            end
        end
  end.
End Agent.

(** ** Notions used to state the properties of discovery *)

(** The objects a location reaches are inside the heap. *)
Definition stable (h : list obj) (l : loc) : Prop :=
  l < length h ∧
  ∀ ls, h !! l = Some (OList ls) → Forall (λ x, x < length h) ls.

(** What a server answers in a pass: its catalog, the pair of the
    "tools" member and the schema version, when both requests succeed
    and the reply is a dict. *)
Definition catalog (s : server) : option (json * json) :=
  match http_get (initialize s), fetch_catalog s with
  | Return _, Return c => Some c
  | _, _ => None
  end.

Definition reachable (s : server) : bool := bool_decide (is_Some (catalog s)).

(** Every cache entry refers to objects inside the heap. *)
Definition closed (st : state) : Prop :=
  ∀ u e, tool_cache st !! u = Some e → stable (heap st) (tools e).

(** The tagged copies a pass makes from the tools value [v]. *)
Definition tagged (u : string) (v : json) : result (list json) :=
  match iter_values v with
  | Raise x => Raise x
  | Return ts =>
      match mapM dict_of ts with
      | Raise x => Raise x
      | Return ms => Return (tag u <$> ms)
      end
  end.


Definition is_dict (v : json) : bool :=
  match v with JObj _ => true | _ => false end.







(** The descriptors of a result that carry the tag of the server [u]:
    what that server contributed. *)
Definition tagged_with (u : string) (v : json) : bool :=
  match v with
  | JObj members =>
      match dict_get "_server_url" members with
      | Some (JStr u') => String.eqb u' u
      | _ => false
      end
  | _ => false
  end.

Definition contributed (u : string) (h : list obj) (res : list loc) : list loc :=
  filter (λ l, tagged_with u (cell h l) = true) res.

(** What a pass from [st] to [st'] did for the server [s], whose
    contribution sits at the locations [mine]. *)
Definition pass_for (s : server) (st st' : state) (mine : list loc) : Prop :=
  match catalog s with
  | None => mine = []
  | Some (fetched, v) =>
      ∃ e vs, tool_cache st' !! url s = Some e ∧
        (if cache_hit (tool_cache st !! url s) v
         then tool_cache st !! url s = Some e ∧
              value_at (heap st') (tools e) = value_at (heap st) (tools e)
         else version e = v ∧ value_at (heap st') (tools e) = fetched ∧
              length (heap st) ≤ tools e) ∧
        tagged (url s) (value_at (heap st') (tools e)) = Return vs ∧
        cell (heap st') <$> mine = vs ∧
        Forall (λ l, length (heap st) ≤ l) mine
  end.

Definition untagged (v : json) : Prop :=
  ∀ items m, v = JArr items → JObj m ∈ items →
    dict_get "_server_url" m = None.

(** ** Sample servers, runtime and turns *)

Definition answers (j : json) : nat → attempt :=
  λ _, Response {| status := 200; body := Some j |}.

Definition unreachable : nat → attempt := λ _, NoResponse ConnectionError.

(** A server with one tool, at schema version "1". *)
Definition echo_server : server := {|
  url := "http://localhost:8000";
  initialize := answers (JObj []);
  list_tools := answers (JObj [
    ("tool_schema_version", JStr "1");
    ("tools", JArr [JObj [("name", JStr "echo")]])])
|}.

(** The same server once its catalog has moved to version "2". *)
Definition echo_server_v2 : server := {|
  url := "http://localhost:8000";
  initialize := answers (JObj []);
  list_tools := answers (JObj [
    ("tool_schema_version", JStr "2");
    ("tools", JArr [JObj [("name", JStr "echo")]; JObj [("name", JStr "get_time")]])])
|}.

(** A server that does not answer. *)
Definition down_server : server := {|
  url := "http://localhost:8001";
  initialize := unreachable;
  list_tools := unreachable
|}.


(** The state after a first pass over the one-tool server. *)
Definition after_first_pass : state :=
  (discover_tools [echo_server] initial_state).2.

(** A [json.loads] that knows the texts of a table and rejects the
    others. *)
Fixpoint table_loads (table : list (string * json)) (s : string) : result json :=
  match table with
  | [] => Raise JSONDecodeError
  | (text, v) :: rest => if String.eqb text s then Return v else table_loads rest s
  end.

(** A validator for the one keyword "type" with the value "object". *)
Definition sample_validate (instance schema : json) : result unit :=
  match schema with
  | JObj keywords =>
      if py_eq (get_or_none "type" keywords) (JStr "object") && negb (is_dict instance)
      then Raise (ValidationError "instance is not of type 'object'")
      else Return tt
  | _ => Raise SchemaError
  end.

Definition sample_runtime (table : list (string * json)) : runtime := {|
  json_loads := table_loads table;
  json_dumps := λ _ _, "<json>";
  py_str := λ v, match v with JStr s => s | _ => "<value>" end;
  strip := λ s, s;
  lower := λ s, s;
  validate := sample_validate
|}.

(** The chat-completion response whose first choice has this content. *)
Definition chat_reply (content : json) : attempt :=
  Response {|
    status := 200;
    body := Some (JObj [("choices", JArr [JObj [("message", JObj [("content", content)])]])])
  |}.

Definition sample_turn (user_text reply : string) : turn := {|
  line := user_text;
  llm := chat_reply (JStr reply);
  tool_call := answers (JObj [("result", JInt 5)]);
  followup := chat_reply (JStr "The result is 5.")
|}.

(** A discovered tool that takes an object, and a decision that uses it. *)
Definition add_numbers : json := JObj [
  ("name", JStr "add_numbers");
  ("args_schema", JObj [("type", JStr "object")]);
  ("_server_url", JStr "http://localhost:8001")].

Definition use_add_numbers (args : json) : json := JObj [
  ("action", JStr "use_tool");
  ("tool", JStr "add_numbers");
  ("server_url", JStr "http://localhost:8001");
  ("args", args)].

(** Two failed attempts, then a 500 whose body parses. *)
Definition error_with_body : nat → attempt :=
  λ i, if (i =? 2)%nat
       then Response {| status := 500; body := Some (JObj [("error", JStr "boom")]) |}
       else NoResponse ConnectionError.

(** Two failed attempts, then a 502 whose body does not parse. *)
Definition error_without_body : nat → attempt :=
  λ i, if (i =? 2)%nat
       then Response {| status := 502; body := None |}
       else NoResponse Timeout.

(** The text of a decision, with its quotes. *)
Definition decision_text (tool_name args : string) : string :=
  join dq ["{"; "action"; ":"; "use_tool"; ","; "tool"; ":"; tool_name; ",";
           "server_url"; ":"; "http://localhost:8001"; ","; "args";
           String.append ":" (String.append args "}")].

Definition sample_table : list (string * json) := [
  (decision_text "add_numbers" "5", use_add_numbers (JInt 5));
  (decision_text "add_numbers" "{}", use_add_numbers (JObj []));
  (decision_text "" "{}",
   JObj [("action", JStr "use_tool"); ("tool", JStr "");
         ("server_url", JStr "http://localhost:8001"); ("args", JObj [])]);
  ("5", JInt 5)].

(** ** Further sample inputs *)

(** A timeout, then a 200 with a body. *)
Definition timeout_then_ok : nat → attempt :=
  λ i, if (i =? 0)%nat then NoResponse Timeout
       else Response {| status := 200; body := Some (JObj [("ok", JBool true)]) |}.

(** Two timeouts, then a 503 with a body. *)
Definition timeouts_then_503 : nat → attempt :=
  λ i, if (i =? 2)%nat
       then Response {| status := 503; body := Some (JObj [("error", JStr "busy")]) |}
       else NoResponse Timeout.

(** A 500 with a body, then no response any more. *)
Definition error_then_down : nat → attempt :=
  λ i, if (i =? 0)%nat
       then Response {| status := 500; body := Some (JObj [("error", JStr "boom")]) |}
       else NoResponse ConnectionError.

(** The one-tool server while it is down. *)
Definition echo_server_down : server := {|
  url := "http://localhost:8000";
  initialize := unreachable;
  list_tools := unreachable
|}.

(** A server whose catalog reply is a JSON array, not an object. *)
Definition array_reply_server : server := {|
  url := "http://localhost:8003";
  initialize := answers (JObj []);
  list_tools := answers (JArr [JStr "echo"])
|}.


(** A server whose catalog has no version, before and after its tools
    change. *)
Definition versionless_server : server := {|
  url := "http://localhost:8005";
  initialize := answers (JObj []);
  list_tools := answers (JObj [("tools", JArr [JObj [("name", JStr "old_tool")]])])
|}.

Definition versionless_server_changed : server := {|
  url := "http://localhost:8005";
  initialize := answers (JObj []);
  list_tools := answers (JObj [("tools", JArr [JObj [("name", JStr "new_tool")]])])
|}.

Definition after_versionless_pass : state :=
  (discover_tools [versionless_server] initial_state).2.

(** The message discovery prints for a server that does not answer. *)
Definition warns_about (s : server) (m : message) : Prop :=
  ∃ e, m = WarnInitialize (url s) e ∨ m = WarnListTools (url s) e.

(** The shape of a descriptor discovery returns: a dict with the key
    "_server_url". *)
Definition discovered_shape (t : json) : Prop :=
  ∃ m, t = JObj m ∧ is_Some (dict_get "_server_url" m).

(** A server whose only tool has no "name". *)
Definition nameless_tool_server : server := {|
  url := "http://localhost:8006";
  initialize := answers (JObj []);
  list_tools := answers (JObj [
    ("tool_schema_version", JStr "1");
    ("tools", JArr [JObj [("description", JStr "a tool without a name")]])])
|}.

(** A server that sends its own "_server_url" in a descriptor. *)
Definition self_tagging_server : server := {|
  url := "http://localhost:8007";
  initialize := answers (JObj []);
  list_tools := answers (JObj [
    ("tool_schema_version", JStr "1");
    ("tools", JArr [JObj [("name", JStr "echo");
                          ("_server_url", JStr "http://elsewhere")]])])
|}.

(** [t["name"]==tool_name and t["_server_url"]==server_url], false where
    a key is missing. *)
Definition matches (t tool_name server_url : json) : bool :=
  match subscript t "name", subscript t "_server_url" with
  | Return name, Return u => py_eq name tool_name && py_eq u server_url
  | _, _ => false
  end.





(** The text of a decision for a tool on a given server. *)
Definition decision_text_on (server_url tool_name args : string) : string :=
  join dq ["{"; "action"; ":"; "use_tool"; ","; "tool"; ":"; tool_name; ",";
           "server_url"; ":"; server_url; ","; "args";
           String.append ":" (String.append args "}")].

Definition use_tool_on (server_url tool_name : string) (args : json) : json := JObj [
  ("action", JStr "use_tool");
  ("tool", JStr tool_name);
  ("server_url", JStr server_url);
  ("args", args)].

(** A discovered tool whose schema the sample validator cannot use. *)
Definition broken_schema_tool : json := JObj [
  ("name", JStr "broken");
  ("args_schema", JInt 5);
  ("_server_url", JStr "http://localhost:8001")].

(** The tool of the same name on another server. *)
Definition add_numbers_elsewhere : json := JObj [
  ("name", JStr "add_numbers");
  ("_server_url", JStr "http://localhost:8000")].

Definition more_texts : list (string * json) := [
  (decision_text_on "http://localhost:8001" "broken" "{}",
   use_tool_on "http://localhost:8001" "broken" (JObj []));
  (decision_text_on "http://localhost:8002" "add_numbers" "{}",
   use_tool_on "http://localhost:8002" "add_numbers" (JObj []));
  (decision_text_on "http://localhost:8001" "add_numbers" "{}",
   use_tool_on "http://localhost:8001" "add_numbers" (JObj []))].



(** A turn in which the model answers with a null content. *)
Definition turn_with_null_content (user_text : string) : turn := {|
  line := user_text;
  llm := chat_reply JNull;
  tool_call := unreachable;
  followup := chat_reply JNull
|}.


(** ** Properties of the Python values *)

(** [dict] on a list reads its items as pairs, a later pair overwriting
    an earlier one with the same key, and raises on an item that is no
    pair or on a key that cannot be hashed; on a string it takes the
    empty one only. *)
Example dict_of_sequences :
  dict_of (JArr [JArr [JStr "name"; JStr "echo"]; JStr "ab";
                 JArr [JStr "name"; JInt 1]])
    = Return [("name", JInt 1); ("a", JStr "b")] ∧
  dict_of (JArr [JObj [("name", JInt 1); ("description", JInt 2)]])
    = Return [("name", JStr "description")] ∧
  dict_of (JArr [JInt 1]) = Raise TypeError ∧
  dict_of (JArr [JArr [JStr "name"]]) = Raise ValueError ∧
  dict_of (JArr [JArr [JArr []; JInt 1]]) = Raise TypeError ∧
  dict_of (JStr "ab") = Raise ValueError ∧
  dict_of (JStr "") = Return [] ∧
  dict_of (JInt 1) = Raise TypeError.
Proof. by repeat split. Qed.

(** NaN equals nothing on its own and itself inside a list; it is true
    as a condition. *)
Example nan_comparisons :
  py_eq (JFloat NaN) (JFloat NaN) = false ∧
  py_eq (JArr [JFloat NaN]) (JArr [JFloat NaN]) = true ∧
  py_eq (JFloat Infinity) (JFloat Infinity) = true ∧
  py_eq (JInt 1) (JFloat (Finite 1)) = true ∧
  truthy (JFloat NaN) = true.
Proof. by repeat split. Qed.

(** ** Properties of the HTTP helpers *)

Lemma try_request_response r j :
  try_request (Response r) = Return j → body r = Some j.
Proof.
  unfold try_request, response_json.
  destruct (raise_for_status r); [|discriminate].
  destruct (body r); congruence.
Qed.

(** When all three attempts fail, [http_post] hands out the body of the
    last response any attempt brought, which need not be the last
    attempt's. *)
Lemma http_post_exhausted (net : nat → attempt) :
  (∀ i, i ≤ MAX_RETRIES → raises (try_request (net i)) = true) →
  http_post net = salvage (rebind (rebind (rebind None (net 0)) (net 1)) (net 2)).
Proof.
  intros Hfail. unfold http_post, MAX_RETRIES in *. simpl.
  pose proof (Hfail 0 ltac:(lia)) as H0.
  pose proof (Hfail 1 ltac:(lia)) as H1.
  pose proof (Hfail 2 ltac:(lia)) as H2.
  destruct (try_request (net 0)); [discriminate|].
  destruct (try_request (net 1)); [discriminate|].
  by destruct (try_request (net 2)); [discriminate|].
Qed.

(** C1. When every attempt before the last one fails and the last
    attempt brings a response whose body parses, [http_post] returns that
    body, whatever the status; [http_post] raises only when the last
    attempt brought no response with a parseable body; and it does raise
    when the attempts before the last fail and the body of the last
    response does not parse. *)
Theorem http_post_salvages_body (net : nat → attempt) :
  (∀ r j,
     (∀ i, i < MAX_RETRIES → raises (try_request (net i)) = true) →
     net MAX_RETRIES = Response r →
     body r = Some j →
     http_post net = Return j) ∧
  (∀ e r,
     http_post net = Raise e →
     net MAX_RETRIES = Response r →
     body r = None) ∧
  (∀ r,
     (∀ i, i < MAX_RETRIES → raises (try_request (net i)) = true) →
     net MAX_RETRIES = Response r →
     body r = None →
     http_post net = Raise JSONDecodeError).
Proof.
  unfold http_post, MAX_RETRIES. simpl. split; [|split].
  - intros r j Hfail Hlast Hbody.
    pose proof (Hfail 0 ltac:(lia)) as H0.
    pose proof (Hfail 1 ltac:(lia)) as H1.
    destruct (try_request (net 0)); [discriminate|].
    destruct (try_request (net 1)); [discriminate|].
    rewrite Hlast.
    destruct (try_request (Response r)) eqn:Hreq.
    + apply try_request_response in Hreq. congruence.
    + simpl. unfold response_json. by rewrite Hbody.
  - intros e r Hraise Hlast.
    destruct (try_request (net 0)); [discriminate|].
    destruct (try_request (net 1)); [discriminate|].
    rewrite Hlast in Hraise.
    destruct (try_request (Response r)); [discriminate|].
    simpl in Hraise. unfold response_json in Hraise.
    destruct (body r); [discriminate|done].
  - intros r Hfail Hlast Hbody.
    pose proof (Hfail 0 ltac:(lia)) as H0.
    pose proof (Hfail 1 ltac:(lia)) as H1.
    destruct (try_request (net 0)); [discriminate|].
    destruct (try_request (net 1)); [discriminate|].
    rewrite Hlast.
    destruct (try_request (Response r)) eqn:Hreq.
    + apply try_request_response in Hreq. congruence.
    + simpl. unfold response_json. by rewrite Hbody.
Qed.

(** ** The heap under discovery *)

Lemma cell_prefix (h h' : list obj) l :
  h `prefix_of` h' → l < length h → cell h' l = cell h l.
Proof.
  intros [k ->] Hl. unfold cell. by rewrite lookup_app_l.
Qed.

Lemma cells_prefix (h h' : list obj) ls :
  h `prefix_of` h' → Forall (λ x, x < length h) ls →
  cell h' <$> ls = cell h <$> ls.
Proof.
  intros Hp Hls. apply list_fmap_ext. intros i x Hx.
  apply cell_prefix; [done|].
  rewrite Forall_forall in Hls. apply Hls.
  apply list_elem_of_lookup. eauto.
Qed.

Lemma stable_prefix (h h' : list obj) l :
  h `prefix_of` h' → stable h l →
  stable h' l ∧ value_at h' l = value_at h l ∧ elements h' l = elements h l.
Proof.
  intros Hp [Hl Hls].
  pose proof Hp as [k Hk].
  assert (Hlook : h' !! l = h !! l) by (subst h'; by rewrite lookup_app_l).
  assert (Hlen : length h ≤ length h').
  { subst h'. rewrite length_app. lia. }
  split; [|split].
  - split; [lia|]. intros ls Hls'. rewrite Hlook in Hls'.
    eapply Forall_impl; [by apply Hls|]. simpl. lia.
  - unfold value_at. rewrite Hlook.
    destruct (h !! l) as [[ls|v]|] eqn:E; try done.
    f_equal. apply cells_prefix; auto.
  - unfold elements. rewrite Hlook.
    destruct (h !! l) as [[ls|v]|] eqn:E; try done.
    f_equal. apply cells_prefix; auto.
Qed.

Lemma alloc_items_spec items (h : list obj) :
  alloc_items items h = (h ++ (OVal <$> items), seq (length h) (length items)).
Proof.
  revert h. induction items as [|t rest IH]; intros h; simpl.
  - by rewrite app_nil_r.
  - rewrite IH. rewrite length_app. simpl.
    rewrite <- app_assoc. simpl.
    by replace (length h + 1) with (S (length h)) by lia.
Qed.

Lemma cell_fresh_items (h k : list obj) items :
  cell (h ++ (OVal <$> items) ++ k) <$> seq (length h) (length items) = items.
Proof.
  apply list_eq. intros i.
  rewrite list_lookup_fmap.
  destruct (items !! i) as [t|] eqn:E.
  - rewrite lookup_seq_lt by (eapply lookup_lt_Some; eauto). simpl.
    unfold cell. rewrite lookup_app_r by lia.
    replace (length h + i - length h) with i by lia.
    rewrite lookup_app_l by (rewrite length_fmap; eapply lookup_lt_Some; eauto).
    by rewrite list_lookup_fmap, E.
  - rewrite lookup_seq_ge; [done|]. by apply lookup_ge_None.
Qed.

Lemma alloc_json_spec v (h h1 : list obj) l :
  alloc_json v h = (h1, l) →
  h `prefix_of` h1 ∧ length h ≤ l ∧ stable h1 l ∧ value_at h1 l = v.
Proof.
  unfold alloc_json, alloc, stable, value_at.
  destruct v as [ |b|n|q|s|items|members];
    try (intros [= <- <-]; split; [by eexists|];
         split; [lia|]; rewrite length_app; simpl;
         rewrite lookup_app_r by lia; rewrite Nat.sub_diag; simpl;
         split; [split; [lia|intros ? [=]]|done]).
  rewrite alloc_items_spec. intros [= <- <-].
  rewrite <- app_assoc.
  split; [by eexists|].
  rewrite !length_app, length_fmap. simpl.
  split; [lia|].
  rewrite lookup_app_r by lia.
  rewrite lookup_app_r by (rewrite length_fmap; lia).
  rewrite length_fmap.
  replace (length h + length items - length h - length items) with 0 by lia.
  simpl. split; [split; [lia|]|].
  - intros ls [= <-]. apply Forall_forall. intros x Hx.
    apply elem_of_seq in Hx. lia.
  - f_equal. apply cell_fresh_items.
Qed.

Lemma insert_fresh (h : list obj) (x y : obj) :
  <[length h := y]> (h ++ [x]) = h ++ [y].
Proof.
  rewrite insert_app_r_alt by lia. by rewrite Nat.sub_diag.
Qed.

(** The tagging loop only appends: one tagged copy per item, while
    [dict] accepts the items. *)
Lemma tag_loop_spec u ts (h : list obj) acc :
  ∃ k, (tag_loop u ts h acc).2 = h ++ k ∧
    match mapM dict_of ts with
    | Raise x => (tag_loop u ts h acc).1 = Raise x
    | Return ms =>
        (tag_loop u ts h acc).1 = Return (acc ++ seq (length h) (length ms)) ∧
        k = OVal ∘ tag u <$> ms
    end.
Proof.
  revert h acc. induction ts as [|t rest IH]; intros h acc; simpl.
  - exists []. by rewrite !app_nil_r.
  - destruct (dict_of t) as [members|x]; simpl.
    + rewrite insert_fresh.
      destruct (IH (h ++ [OVal (tag u members)]) (acc ++ [length h]))
        as (k & Hk & Hres).
      exists (OVal (tag u members) :: k). split.
      * etrans; [exact Hk|]. by rewrite <- app_assoc.
      * destruct (mapM dict_of rest) as [ms|x]; [|done].
        destruct Hres as [Hr ->]. split; [|done]. simpl.
        etrans; [exact Hr|]. f_equal.
        rewrite length_app. simpl.
        rewrite <- app_assoc. simpl.
        by replace (length h + 1) with (S (length h)) by lia.
    + exists []. by rewrite app_nil_r.
Qed.

Lemma elements_value_at (h : list obj) l :
  elements h l = iter_values (value_at h l).
Proof.
  unfold elements, value_at. by destruct (h !! l) as [[ls|v]|].
Qed.

Lemma closed_initial : closed initial_state.
Proof. intros u e. unfold initial_state. simpl. by rewrite lookup_empty. Qed.

(** One iteration of the discovery loop. *)
Lemma discover_server_step s st acc r st' :
  discover_server s st acc = (r, st') → closed st →
  heap st `prefix_of` heap st' ∧ closed st' ∧
  (∀ u, u ≠ url s → tool_cache st' !! u = tool_cache st !! u) ∧
  match catalog s with
  | None => r = Return acc ∧ tool_cache st' = tool_cache st ∧ heap st' = heap st
  | Some (fetched, v) =>
      ∃ e, tool_cache st' !! url s = Some e ∧
        (if cache_hit (tool_cache st !! url s) v
         then tool_cache st !! url s = Some e ∧ tool_cache st' = tool_cache st
         else version e = v ∧ value_at (heap st') (tools e) = fetched ∧
              length (heap st) ≤ tools e) ∧
        match tagged (url s) (value_at (heap st') (tools e)) with
        | Raise x => r = Raise x
        | Return vs =>
            ∃ new, r = Return (acc ++ new) ∧ cell (heap st') <$> new = vs ∧
              Forall (λ l, length (heap st) ≤ l < length (heap st')) new
        end
  end.
Proof.
  intros Hrun Hclosed. unfold discover_server, catalog in *.
  destruct (http_get (initialize s)) as [ping|x0].
  2:{ injection Hrun as <- <-. simpl.
      split; [done|]. split; [exact Hclosed|]. by repeat split. }
  destruct (fetch_catalog s) as [[fetched v]|x'].
  2:{ injection Hrun as <- <-. simpl.
      split; [done|]. split; [exact Hclosed|]. by repeat split. }
  destruct (alloc_json fetched (heap st)) as [h1 fresh] eqn:Halloc.
  apply alloc_json_spec in Halloc as (Hp1 & Hfresh & Hst1 & Hval1).
  pose (hit := cache_hit (tool_cache st !! url s) v).
  (* the entry in effect and the cache after the comparison *)
  assert (∃ e cache' m,
    (if hit
     then (from_option tools fresh (tool_cache st !! url s), tool_cache st,
           InfoUsingCached (url s) v)
     else (fresh, <[url s := {| version := v; tools := fresh |}]> (tool_cache st),
           InfoCached (url s) v)) = (tools e, cache', m) ∧
    cache' !! url s = Some e ∧ stable h1 (tools e) ∧
    (∀ u, u ≠ url s → cache' !! u = tool_cache st !! u) ∧
    (∀ u e', cache' !! u = Some e' → stable h1 (tools e')) ∧
    (if hit then tool_cache st !! url s = Some e ∧ cache' = tool_cache st
     else version e = v ∧ value_at h1 (tools e) = fetched ∧
          length (heap st) ≤ tools e))
    as (e & cache' & m & Hsel & He & Hste & Hother & Hcl & Hcase).
  { assert (Hold : ∀ u e', tool_cache st !! u = Some e' → stable h1 (tools e')).
    { intros u e' He'.
      by destruct (stable_prefix (heap st) h1 (tools e') Hp1 (Hclosed u e' He')). }
    subst hit. destruct (cache_hit (tool_cache st !! url s) v) eqn:Hhit.
    - unfold cache_hit in Hhit.
      destruct (tool_cache st !! url s) as [c|] eqn:Hc; [|done].
      exists c, (tool_cache st), (InfoUsingCached (url s) v). simpl.
      split; [done|]. split; [done|]. split; [by eapply Hold|].
      split; [done|]. split; [exact Hold|done].
    - exists {| version := v; tools := fresh |},
        (<[url s := {| version := v; tools := fresh |}]> (tool_cache st)),
        (InfoCached (url s) v). simpl.
      split; [done|]. split; [by rewrite lookup_insert_eq|].
      split; [exact Hst1|].
      split; [intros u Hu; by rewrite lookup_insert_ne|].
      split; [|done].
      intros u e'. rewrite lookup_insert. case_decide.
      + by intros [= <-].
      + apply Hold. }
  subst hit.
  rewrite Hsel in Hrun. clear Hsel.
  rewrite elements_value_at in Hrun.
  destruct (tag_loop_spec (url s) (default [] (match iter_values (value_at h1 (tools e)) with Return ts => Some ts | Raise _ => None end)) h1 acc)
    as (k & Hk & Hres).
  assert (Hfinal : h1 `prefix_of` heap st' ∧ tool_cache st' = cache' ∧
    match tagged (url s) (value_at h1 (tools e)) with
    | Raise x => r = Raise x
    | Return vs =>
        ∃ new, r = Return (acc ++ new) ∧ cell (heap st') <$> new = vs ∧
          Forall (λ l, length h1 ≤ l < length (heap st')) new
    end).
  { unfold tagged.
    destruct (iter_values (value_at h1 (tools e))) as [ts|x]; simpl in *.
    - destruct (tag_loop (url s) ts h1 acc) as [r0 h2]. simpl in *.
      injection Hrun as <- <-. simpl. subst h2.
      split; [by eexists|]. split; [done|].
      destruct (mapM dict_of ts) as [ms|x]; [|done].
      destruct Hres as [-> ->].
      exists (seq (length h1) (length ms)). split; [done|]. split.
      + rewrite list_fmap_compose.
        rewrite <- (length_fmap (tag (url s)) ms).
        rewrite <- (app_nil_r (OVal <$> (tag (url s) <$> ms))).
        apply cell_fresh_items.
      + apply Forall_forall. intros l Hl. apply elem_of_seq in Hl.
        rewrite length_app, length_fmap. lia.
    - injection Hrun as <- <-. simpl. done. }
  destruct Hfinal as (Hp2 & Hcache & Hout).
  assert (Hp : heap st `prefix_of` heap st') by (etrans; eauto).
  assert (Hlen : length (heap st) ≤ length h1).
  { destruct Hp1 as [k1 ->]. rewrite length_app. lia. }
  split; [done|]. split.
  { intros u e'. rewrite Hcache. intros He'.
    by eapply (stable_prefix h1 (heap st')), Hcl. }
  split; [by rewrite Hcache|].
  destruct (stable_prefix h1 (heap st') (tools e) Hp2 Hste) as (_ & Hv & _).
  exists e. rewrite Hcache. split; [done|]. split.
  - destruct (cache_hit (tool_cache st !! url s) v);
      [by destruct Hcase as [? ->]|]. by rewrite Hv.
  - rewrite Hv. destruct (tagged (url s) (value_at h1 (tools e))) as [vs|x]; [|done].
    destruct Hout as (new & -> & Hvals & Hnew). exists new.
    repeat split; try done.
    eapply Forall_impl; [exact Hnew|]. simpl. lia.
Qed.



Lemma discover_loop_app l1 l2 st acc :
  discover_loop (l1 ++ l2) st acc =
  match discover_loop l1 st acc with
  | (Raise e, st1) => (Raise e, st1)
  | (Return acc1, st1) => discover_loop l2 st1 acc1
  end.
Proof.
  revert st acc. induction l1 as [|s rest IH]; intros st acc; simpl.
  - done.
  - destruct (discover_server s st acc) as [[acc1|e] st1]; [apply IH|done].
Qed.

(** A discovery pass only appends to the heap, keeps the cache closed,
    and leaves alone the entries of the servers it was not given. *)
Lemma discover_loop_frame servers st acc r st' :
  discover_loop servers st acc = (r, st') → closed st →
  heap st `prefix_of` heap st' ∧ closed st' ∧
  (∀ u, u ∉ url <$> servers → tool_cache st' !! u = tool_cache st !! u).
Proof.
  revert st acc. induction servers as [|s rest IH]; intros st acc Hrun Hc; simpl in *.
  - by injection Hrun as <- <-.
  - destruct (discover_server s st acc) as [r1 st1] eqn:Hstep.
    apply discover_server_step in Hstep as (Hp & Hc1 & Hother & _); [|done].
    destruct r1 as [acc1|e].
    + apply IH in Hrun as (Hp' & Hc' & Hother'); [|done].
      split; [by etrans|]. split; [done|].
      intros u Hu. apply not_elem_of_cons in Hu as [Hne Hu].
      rewrite Hother' by done. by apply Hother.
    + injection Hrun as <- <-. split; [done|]. split; [done|].
      intros u Hu. apply not_elem_of_cons in Hu as [Hne Hu]. by apply Hother.
Qed.





Lemma dict_get_set k x m : dict_get k (dict_set k x m) = Some x.
Proof.
  induction m as [|[k0 v0] rest IH]; simpl.
  - by rewrite String.eqb_refl.
  - destruct (String.eqb k0 k) eqn:E; simpl; rewrite E; [done|apply IH].
Qed.

Lemma tagged_with_tag u u' m : tagged_with u (tag u' m) = String.eqb u' u.
Proof. unfold tagged_with, tag. by rewrite dict_get_set. Qed.

Lemma tagged_Forall u v vs :
  tagged u v = Return vs → Forall (λ x, ∃ m, x = tag u m) vs.
Proof.
  unfold tagged. destruct (iter_values v) as [ts|]; [|done].
  destruct (mapM dict_of ts) as [ms|]; [|done]. intros [= <-].
  apply Forall_fmap, Forall_forall. intros m _. by exists m.
Qed.

Lemma contributed_own u (h : list obj) new :
  Forall (λ x, ∃ m, x = tag u m) (cell h <$> new) → contributed u h new = new.
Proof.
  unfold contributed. induction new as [|l rest IH]; [done|].
  rewrite fmap_cons. intros Hall. apply Forall_cons in Hall as [[m Hm] Hrest].
  rewrite filter_cons_True; [by rewrite IH|].
  rewrite Hm, tagged_with_tag. apply String.eqb_refl.
Qed.

Lemma contributed_other u u' (h : list obj) new :
  u' ≠ u →
  Forall (λ x, ∃ m, x = tag u' m) (cell h <$> new) → contributed u h new = [].
Proof.
  intros Hne. unfold contributed. induction new as [|l rest IH]; [done|].
  rewrite fmap_cons. intros Hall. apply Forall_cons in Hall as [[m Hm] Hrest].
  rewrite filter_cons_False; [by apply IH|].
  rewrite Hm, tagged_with_tag. intros Heq. by apply String.eqb_eq in Heq.
Qed.

Lemma contributed_app u (h : list obj) l1 l2 :
  contributed u h (l1 ++ l2) = contributed u h l1 ++ contributed u h l2.
Proof. apply filter_app. Qed.

Lemma pass_for_earlier s st st1 st' mine :
  closed st → heap st `prefix_of` heap st1 → heap st1 `prefix_of` heap st' →
  tool_cache st1 !! url s = tool_cache st !! url s →
  pass_for s st1 st' mine → pass_for s st st' mine.
Proof.
  intros Hc Hp Hp' Hsame. unfold pass_for.
  destruct (catalog s) as [[fetched v]|]; [|done].
  intros (e & vs & He & Hcase & Htag & Hvals & Hfresh).
  assert (Hlen : length (heap st) ≤ length (heap st1)).
  { destruct Hp as [k ->]. rewrite length_app. lia. }
  exists e, vs. split; [done|]. rewrite <- Hsame. split; [|split; [done|split; [done|]]].
  - destruct (cache_hit (tool_cache st1 !! url s) v).
    + destruct Hcase as [Hold ->]. split; [done|].
      rewrite Hsame in Hold.
      by destruct (stable_prefix _ _ _ Hp (Hc _ _ Hold)) as (_ & -> & _).
    + destruct Hcase as (? & ? & ?). repeat split; try done. lia.
  - eapply Forall_impl; [exact Hfresh|]. simpl. lia.
Qed.

(** A pass over servers with distinct urls, server by server. *)
Lemma discover_loop_contributions servers st acc res st' :
  discover_loop servers st acc = (Return res, st') → closed st →
  NoDup (url <$> servers) →
  ∃ new, res = acc ++ new ∧
    Forall (λ l, length (heap st) ≤ l < length (heap st')) new ∧
    (∀ u, u ∉ url <$> servers → contributed u (heap st') new = []) ∧
    (∀ s, s ∈ servers → pass_for s st st' (contributed (url s) (heap st') new)).
Proof.
  revert st acc. induction servers as [|s rest IH]; intros st acc Hrun Hc Hnd.
  - simpl in Hrun. injection Hrun as <- <-. exists [].
    rewrite app_nil_r. split; [done|]. split; [done|]. split; [done|].
    intros s Hs. by apply elem_of_nil in Hs.
  - simpl in Hrun, Hnd. apply NoDup_cons in Hnd as [Hfirst Hnd].
    destruct (discover_server s st acc) as [r1 st1] eqn:Hstep.
    apply discover_server_step in Hstep as (Hp & Hc1 & Hother & Hcase); [|done].
    destruct r1 as [acc1|e1]; [|done].
    pose proof (discover_loop_frame _ _ _ _ _ Hrun Hc1) as (Hp' & Hc' & Hframe).
    destruct (IH _ _ Hrun Hc1 Hnd) as (new2 & -> & Hnew2 & Hnone2 & Hpass2).
    assert (Hlen1 : length (heap st) ≤ length (heap st1)).
    { destruct Hp as [k ->]. rewrite length_app. lia. }
    assert (Hlen2 : length (heap st1) ≤ length (heap st')).
    { destruct Hp' as [k ->]. rewrite length_app. lia. }
    (* what the first server appended *)
    assert (∃ new1, acc1 = acc ++ new1 ∧
              Forall (λ l, length (heap st) ≤ l < length (heap st1)) new1 ∧
              Forall (λ x, ∃ m, x = tag (url s) m) (cell (heap st') <$> new1) ∧
              pass_for s st st' new1) as (new1 & -> & Hnew1 & Htags1 & Hpass1).
    { unfold pass_for. destruct (catalog s) as [[fetched v]|] eqn:Hcat.
      - destruct Hcase as (e & He & Hhit & Hout).
        destruct (tagged (url s) (value_at (heap st1) (tools e))) as [vs|x] eqn:Htag;
          [|done].
        destruct Hout as (new1 & [= ->] & Hvals & Hn).
        assert (Hcells : cell (heap st') <$> new1 = vs).
        { rewrite <- Hvals. apply cells_prefix; [done|].
          eapply Forall_impl; [exact Hn|]. simpl. lia. }
        destruct (stable_prefix _ _ _ Hp' (Hc1 _ _ He)) as (_ & Hv & _).
        exists new1. split; [done|]. split; [done|]. split.
        { rewrite Hcells. by eapply tagged_Forall. }
        exists e, vs. split; [by rewrite Hframe|]. split.
        { destruct (cache_hit (tool_cache st !! url s) v).
          - destruct Hhit as [Hold _]. split; [done|]. rewrite Hv.
            by destruct (stable_prefix _ _ _ Hp (Hc _ _ Hold)) as (_ & -> & _).
          - destruct Hhit as (? & ? & ?). by rewrite Hv. }
        rewrite Hv. split; [done|]. split; [done|].
        eapply Forall_impl; [exact Hn|]. simpl. lia.
      - destruct Hcase as ([= ->] & _ & _). exists [].
        by rewrite app_nil_r. }
    exists (new1 ++ new2). rewrite app_assoc. split; [done|]. split.
    { apply Forall_app. split.
      - eapply Forall_impl; [exact Hnew1|]. simpl. lia.
      - eapply Forall_impl; [exact Hnew2|]. simpl. lia. }
    split.
    { intros u Hu. apply not_elem_of_cons in Hu as [Hne Hu].
      rewrite contributed_app, (Hnone2 u Hu), app_nil_r.
      by apply (contributed_other u (url s)). }
    intros s' Hs'. rewrite contributed_app.
    apply elem_of_cons in Hs' as [->|Hin].
    + rewrite (Hnone2 (url s) Hfirst), app_nil_r.
      by rewrite contributed_own.
    + assert (Hne : url s' ≠ url s).
      { intros Heq. apply Hfirst. rewrite <- Heq. by apply list_elem_of_fmap_2. }
      rewrite (contributed_other (url s') (url s)) by done. simpl.
      eapply pass_for_earlier; eauto.
Qed.

Lemma discover_server_entries s st acc r st' :
  discover_server s st acc = (r, st') → closed st →
  ∀ u e, tool_cache st' !! u = Some e →
    tool_cache st !! u = Some e ∨
    (url s = u ∧ ∃ fetched, catalog s = Some (fetched, version e) ∧
       value_at (heap st') (tools e) = fetched).
Proof.
  intros Hstep Hc u e He.
  apply discover_server_step in Hstep as (_ & _ & Hother & Hcase); [|done].
  destruct (decide (u = url s)) as [->|Hne].
  - destruct (catalog s) as [[fetched v]|].
    + destruct Hcase as (e0 & He0 & Hhit & _).
      rewrite He in He0. injection He0 as <-.
      destruct (cache_hit (tool_cache st !! url s) v).
      * left. by destruct Hhit.
      * right. destruct Hhit as (<- & <- & _). split; [done|]. by eexists.
    + left. destruct Hcase as (_ & <- & _). done.
  - left. by rewrite <- Hother.
Qed.

(** Every entry a pass leaves in the cache was there before, or holds
    exactly what a server of the pass sent. *)
Lemma discover_loop_entries servers st acc r st' :
  discover_loop servers st acc = (r, st') → closed st →
  ∀ u e, tool_cache st' !! u = Some e →
    tool_cache st !! u = Some e ∨
    ∃ s fetched, s ∈ servers ∧ url s = u ∧
      catalog s = Some (fetched, version e) ∧
      value_at (heap st') (tools e) = fetched.
Proof.
  revert st acc. induction servers as [|s rest IH]; intros st acc Hrun Hc u e He.
  - simpl in Hrun. injection Hrun as <- <-. by left.
  - simpl in Hrun.
    destruct (discover_server s st acc) as [r1 st1] eqn:Hstep.
    pose proof (discover_server_entries _ _ _ _ _ Hstep Hc) as Hent.
    apply discover_server_step in Hstep as (Hp & Hc1 & _ & _); [|done].
    assert (Hhead : ∀ h', heap st1 `prefix_of` h' →
      tool_cache st1 !! u = Some e →
      tool_cache st !! u = Some e ∨
      ∃ s0 fetched, s0 ∈ s :: rest ∧ url s0 = u ∧
        catalog s0 = Some (fetched, version e) ∧ value_at h' (tools e) = fetched).
    { intros h' Hp' He1. destruct (Hent u e He1) as [Hold|(Hu & fetched & Hcat & Hv)].
      - by left.
      - right. exists s, fetched. split; [by left|]. split; [done|].
        split; [done|].
        by destruct (stable_prefix _ _ _ Hp' (Hc1 _ _ He1)) as (_ & -> & _). }
    destruct r1 as [acc1|e1].
    + pose proof (discover_loop_frame _ _ _ _ _ Hrun Hc1) as (Hp' & _ & _).
      destruct (IH _ _ Hrun Hc1 u e He) as [He1|(s0 & fetched & Hin & Hu & Hcat & Hv)].
      * by apply Hhead.
      * right. exists s0, fetched. split; [by right|done].
    + injection Hrun as <- <-. by apply Hhead.
Qed.

(** ** Properties of discovery *)

Lemma discover_tools_contributions servers st res st' :
  discover_tools servers st = (Return res, st') → closed st →
  NoDup (url <$> servers) →
  Forall (λ l, length (heap st) ≤ l < length (heap st')) res ∧
  ∀ s, s ∈ servers → pass_for s st st' (contributed (url s) (heap st') res).
Proof.
  intros Hrun Hc Hnd.
  destruct (discover_loop_contributions _ _ _ _ _ Hrun Hc Hnd)
    as (new & -> & Hnew & _ & Hpass).
  done.
Qed.

(** C2, as the code has it.  When the version a server reports on a
    second discovery call equals the version the cache holds for it
    after the first call, the second call leaves the entry as it is, the
    same list object with the same content, and the freshly fetched list
    stays out of the cache; what it contributes for that server are new
    tagged copies, equal in content to those of the first call and none
    of them an object of the first result. *)
Theorem unchanged_version_reuses_cached_list
    servers1 servers2 st0 res1 st1 res2 st2 s1 s2 f1 v1 f2 v2 :
  discover_tools servers1 st0 = (Return res1, st1) →
  discover_tools servers2 st1 = (Return res2, st2) →
  closed st0 →
  NoDup (url <$> servers1) → NoDup (url <$> servers2) →
  s1 ∈ servers1 → s2 ∈ servers2 → url s2 = url s1 →
  catalog s1 = Some (f1, v1) → catalog s2 = Some (f2, v2) →
  cache_hit (tool_cache st1 !! url s1) v2 = true →
  ∃ e, tool_cache st1 !! url s1 = Some e ∧
    tool_cache st2 !! url s1 = Some e ∧
    value_at (heap st2) (tools e) = value_at (heap st1) (tools e) ∧
    cell (heap st2) <$> contributed (url s1) (heap st2) res2 =
      cell (heap st1) <$> contributed (url s1) (heap st1) res1 ∧
    Forall (λ l, l ∉ res1) (contributed (url s1) (heap st2) res2).
Proof.
  intros Hrun1 Hrun2 Hc0 Hnd1 Hnd2 Hin1 Hin2 Hurl Hcat1 Hcat2 Hhit.
  destruct (discover_loop_frame _ _ _ _ _ Hrun1 Hc0) as (_ & Hc1 & _).
  destruct (discover_tools_contributions _ _ _ _ Hrun1 Hc0 Hnd1) as [Hres1 Hpass1].
  destruct (discover_tools_contributions _ _ _ _ Hrun2 Hc1 Hnd2) as [_ Hpass2].
  specialize (Hpass1 s1 Hin1). specialize (Hpass2 s2 Hin2).
  unfold pass_for in Hpass1, Hpass2.
  rewrite Hcat1 in Hpass1. rewrite Hcat2, Hurl, Hhit in Hpass2.
  destruct Hpass1 as (e1 & vs1 & He1 & _ & Htag1 & Hvals1 & _).
  destruct Hpass2 as (e2 & vs2 & He2 & [Hold Hsame] & Htag2 & Hvals2 & Hfresh2).
  rewrite He1 in Hold. injection Hold as <-.
  exists e1. split; [done|]. split; [done|]. split; [done|]. split.
  - rewrite Hvals1, Hvals2. rewrite Hsame in Htag2. congruence.
  - eapply Forall_impl; [exact Hfresh2|]. simpl. intros l Hl Hin.
    rewrite Forall_forall in Hres1. specialize (Hres1 l Hin). lia.
Qed.

(** C3. For a server whose reported version differs from the cached
    one, or that has no entry, discovery puts a new entry in the cache:
    the reported version, and as tools a new object holding exactly
    what was fetched. *)
Theorem changed_version_replaces_entry servers st res st' s fetched v :
  discover_tools servers st = (Return res, st') →
  closed st →
  NoDup (url <$> servers) →
  s ∈ servers →
  catalog s = Some (fetched, v) →
  cache_hit (tool_cache st !! url s) v = false →
  ∃ e, tool_cache st' !! url s = Some e ∧
    version e = v ∧
    value_at (heap st') (tools e) = fetched ∧
    length (heap st) ≤ tools e.
Proof.
  intros Hrun Hc Hnd Hin Hcat Hmiss.
  destruct (discover_tools_contributions _ _ _ _ Hrun Hc Hnd) as [_ Hpass].
  specialize (Hpass s Hin). unfold pass_for in Hpass.
  rewrite Hcat, Hmiss in Hpass.
  destruct Hpass as (e & vs & He & (Hv & Hval & Hnew) & _).
  by exists e.
Qed.





(** C8, amended.  Discovery changes no object that exists: it appends
    to the heap, so the cached lists and their descriptors read after a
    pass as they did before it; an entry the pass leaves in the cache was
    there before or holds exactly what a server sent; so a cached
    descriptor carries the key "_server_url" only where a server sent it,
    never through tagging: when neither the cached descriptors nor the
    catalogs carry the key, no cached descriptor carries it after the
    pass. *)
Theorem tagging_leaves_cache_alone servers st r st' :
  discover_tools servers st = (r, st') →
  closed st →
  heap st `prefix_of` heap st' ∧
  (∀ u e, tool_cache st !! u = Some e →
     value_at (heap st') (tools e) = value_at (heap st) (tools e)) ∧
  (∀ u e, tool_cache st' !! u = Some e →
     tool_cache st !! u = Some e ∨
     ∃ s fetched, s ∈ servers ∧ url s = u ∧
       catalog s = Some (fetched, version e) ∧
       value_at (heap st') (tools e) = fetched) ∧
  ((∀ u e, tool_cache st !! u = Some e → untagged (value_at (heap st) (tools e))) →
   (∀ s fetched v, s ∈ servers → catalog s = Some (fetched, v) → untagged fetched) →
   ∀ u e, tool_cache st' !! u = Some e → untagged (value_at (heap st') (tools e))).
Proof.
  intros Hrun Hc.
  destruct (discover_loop_frame _ _ _ _ _ Hrun Hc) as (Hp & Hc' & _).
  assert (Hkeep : ∀ u e, tool_cache st !! u = Some e →
            value_at (heap st') (tools e) = value_at (heap st) (tools e)).
  { intros u e He. by destruct (stable_prefix _ _ _ Hp (Hc _ _ He)) as (_ & -> & _). }
  split; [done|]. split; [done|]. split.
  - by apply (discover_loop_entries _ _ _ _ _ Hrun Hc).
  - intros Hold Hsent u e He.
    destruct (discover_loop_entries _ _ _ _ _ Hrun Hc u e He)
      as [He0|(s & fetched & Hin & _ & Hcat & <-)].
    + rewrite (Hkeep _ _ He0). by eapply Hold.
    + by eapply Hsent.
Qed.

(** ** Properties of the agent loop *)

Lemma session_continue rt tools system_prompt t rest evs :
  agent_turn rt tools system_prompt t = (evs, Continue) →
  session rt tools system_prompt (t :: rest) =
  (evs ++ (session rt tools system_prompt rest).1,
   (session rt tools system_prompt rest).2).
Proof.
  intros Hturn. simpl. rewrite Hturn.
  by destruct (session rt tools system_prompt rest).
Qed.

Lemma find_tool_found tools tool_name server_url t :
  find_tool tools tool_name server_url = Return (Some t) → truthy t = true.
Proof.
  induction tools as [|t0 rest IH]; simpl; [done|].
  destruct (subscript t0 "name") as [name|] eqn:Hname; [|done].
  assert (Ht0 : truthy t0 = true).
  { destruct t0 as [ | | | | | |members]; try done.
    destruct members; done. }
  destruct (py_eq name tool_name); [|exact IH].
  destruct (subscript t0 "_server_url") as [u|]; [|done].
  destruct (py_eq u server_url); [|exact IH].
  by intros [= <-].
Qed.


(** C9. A "use_tool" decision whose tool or server url is missing,
    empty or otherwise false is reported as incomplete, whatever the
    discovered tools are, and the loop goes on to the next turn. *)
Theorem falsy_tool_fields_are_incomplete rt tools system_prompt t raw d rest :
  is_quit rt (strip rt (line t)) = false →
  call_llm rt (llm t) = Return (JStr raw) →
  json_loads rt raw = Return (JObj d) →
  dict_get "action" d = Some (JStr "use_tool") →
  truthy (get_or_none "tool" d) = false ∨
    truthy (get_or_none "server_url" d) = false →
  agent_turn rt tools system_prompt t =
    ([AskModel system_prompt (strip rt (line t)) 0;
      Say (IncompleteToolCall (JObj d))], Continue) ∧
  session rt tools system_prompt (t :: rest) =
    ([AskModel system_prompt (strip rt (line t)) 0;
      Say (IncompleteToolCall (JObj d))]
       ++ (session rt tools system_prompt rest).1,
     (session rt tools system_prompt rest).2).
Proof.
  intros Hquit Hllm Hloads Haction Hfalsy.
  assert (Hturn : agent_turn rt tools system_prompt t =
    ([AskModel system_prompt (strip rt (line t)) 0;
      Say (IncompleteToolCall (JObj d))], Continue)).
  { unfold agent_turn. rewrite Hquit, Hllm. unfold loads. rewrite Hloads.
    unfold decide_action, get_or_none at 1 2. rewrite Haction. simpl.
    unfold use_tool.
    destruct Hfalsy as [-> | ->]; simpl; [done|].
    by rewrite orb_true_r. }
  split; [done|]. by apply session_continue.
Qed.

Lemma validate_args_message rt tool args m :
  (∀ instance schema msg,
     validate rt instance schema = Raise (ValidationError msg) → msg ≠ "") →
  validate_args_against_tool rt tool args = Return (Some m) → m ≠ "".
Proof.
  intros Hlib. unfold validate_args_against_tool.
  destruct (get_default tool "args_schema" default_args_schema) as [schema|]; [|done].
  destruct (validate rt args schema) as [|e] eqn:Hv; [done|].
  destruct e; try done. intros [= <-]. by eapply Hlib.
Qed.

Lemma truthy_message_some m : m ≠ "" → truthy_message (Some m) = true.
Proof.
  intros Hm. simpl. destruct (String.eqb m "") eqn:E; [|done].
  by apply String.eqb_eq in E.
Qed.

(** C6. With a validator whose messages are not empty: arguments that
    violate the schema of a tool give that message; a turn in which
    validation gives a message reports it and goes on to the next turn;
    and a turn that calls a tool has validated these arguments against
    the tool it found, without a message. *)
Theorem invalid_args_never_reach_the_tool rt :
  (∀ instance schema msg,
     validate rt instance schema = Raise (ValidationError msg) → msg ≠ "") →
  (∀ tool args schema m,
     get_default tool "args_schema" default_args_schema = Return schema →
     validate rt args schema = Raise (ValidationError m) →
     validate_args_against_tool rt tool args = Return (Some m) ∧ m ≠ "") ∧
  (∀ tools system_prompt t raw d tool m,
     is_quit rt (strip rt (line t)) = false →
     call_llm rt (llm t) = Return (JStr raw) →
     json_loads rt raw = Return (JObj d) →
     dict_get "action" d = Some (JStr "use_tool") →
     truthy (get_or_none "tool" d) = true →
     truthy (get_or_none "server_url" d) = true →
     find_tool tools (get_or_none "tool" d) (get_or_none "server_url" d)
       = Return (Some tool) →
     validate_args_against_tool rt tool (default (JObj []) (dict_get "args" d))
       = Return (Some m) →
     agent_turn rt tools system_prompt t =
       ([AskModel system_prompt (strip rt (line t)) 0; Say (ValidationFailed m)],
        Continue)) ∧
  (∀ tools system_prompt t server_url tool_name args,
     CallTool server_url tool_name args ∈ (agent_turn rt tools system_prompt t).1 →
     ∃ tool, find_tool tools tool_name server_url = Return (Some tool) ∧
       validate_args_against_tool rt tool args = Return None).
Proof.
  intros Hlib. split; [|split].
  - intros tool args schema m Hschema Hv. split; [|by eapply Hlib].
    unfold validate_args_against_tool. by rewrite Hschema, Hv.
  - intros tools system_prompt t raw d tool m
      Hquit Hllm Hloads Haction Htool Hurl Hfind Hval.
    unfold agent_turn. rewrite Hquit, Hllm. unfold loads. rewrite Hloads.
    unfold decide_action, get_or_none at 1 2. rewrite Haction. simpl.
    unfold use_tool. rewrite Htool, Hurl, Hfind. simpl.
    rewrite (find_tool_found _ _ _ _ Hfind). simpl. rewrite Hval.
    rewrite truthy_message_some by (by eapply validate_args_message). done.
  - intros tools system_prompt t server_url tool_name args.
    unfold agent_turn.
    destruct (is_quit rt (strip rt (line t))); [by intros ?%elem_of_nil|].
    destruct (call_llm rt (llm t)) as [llm_reply|e].
    2:{ simpl. intros Hin. repeat (apply elem_of_cons in Hin as [?|Hin]; [done|]).
        by apply elem_of_nil in Hin. }
    destruct (loads rt llm_reply) as [decision|e].
    2:{ destruct e; simpl; intros Hin;
        repeat (apply elem_of_cons in Hin as [?|Hin]; [done|]);
        by apply elem_of_nil in Hin. }
    destruct (decide_action rt tools system_prompt (strip rt (line t)) decision t)
      as [evs c] eqn:Hdec. simpl.
    intros Hin. apply elem_of_cons in Hin as [?|Hin]; [done|].
    unfold decide_action in Hdec.
    assert (Hno : ∀ m : message, CallTool server_url tool_name args ∈ [Say m] → False).
    { intros m Hm. apply elem_of_cons in Hm as [?|Hm]; [done|].
      by apply elem_of_nil in Hm. }
    destruct decision as [ | | | | | |d];
      try (injection Hdec as <- <-; by apply elem_of_nil in Hin).
    destruct (py_eq (get_or_none "action" d) (JStr "none"));
      [injection Hdec as <- <-; by apply Hno in Hin|].
    destruct (negb (py_eq (get_or_none "action" d) (JStr "use_tool")));
      [injection Hdec as <- <-; by apply Hno in Hin|].
    unfold use_tool in Hdec.
    destruct (negb (truthy (get_or_none "tool" d))
              || negb (truthy (get_or_none "server_url" d)));
      [injection Hdec as <- <-; by apply Hno in Hin|].
    destruct (find_tool tools (get_or_none "tool" d) (get_or_none "server_url" d))
      as [found|e] eqn:Hfind;
      [|injection Hdec as <- <-; by apply elem_of_nil in Hin].
    destruct (negb (truthy (default JNull found))) eqn:Hfound;
      [injection Hdec as <- <-; by apply Hno in Hin|].
    destruct found as [tool|]; [|done]. simpl in Hdec.
    destruct (validate_args_against_tool rt tool (default (JObj []) (dict_get "args" d)))
      as [err|e] eqn:Hval;
      [|injection Hdec as <- <-; by apply elem_of_nil in Hin].
    destruct (truthy_message err) eqn:Herr;
      [injection Hdec as <- <-; by apply Hno in Hin|].
    assert (Hnone : err = None).
    { destruct err as [m|]; [|done].
      rewrite truthy_message_some in Herr; [done|].
      by eapply validate_args_message. }
    subst err.
    assert (Hcall : CallTool server_url tool_name args =
                    CallTool (get_or_none "server_url" d) (get_or_none "tool" d)
                      (default (JObj []) (dict_get "args" d))).
    { destruct (http_post (tool_call t)) as [tool_result|e];
        injection Hdec as <- <-.
      - apply elem_of_cons in Hin as [?|Hin]; [done|].
        unfold summarize in Hin. apply elem_of_app in Hin as [Hin|Hin].
        + repeat (apply elem_of_cons in Hin as [?|Hin]; [done|]).
          by apply elem_of_nil in Hin.
        + destruct (call_llm rt (followup t));
            repeat (apply elem_of_cons in Hin as [?|Hin]; [done|]);
            by apply elem_of_nil in Hin.
      - apply elem_of_cons in Hin as [?|Hin]; [done|]. by apply Hno in Hin. }
    injection Hcall as -> -> ->. by exists tool.
Qed.

(** C10. A tool that declares no "args_schema" is validated against the
    default schema of type "object": what [validate_args_against_tool]
    returns for it is what the validator says of the arguments and that
    schema.  So with a validator that accepts every object against that
    schema, every object passes and the function returns [None]; and
    where the validator refuses the arguments, as it does all that is no
    object, the function returns the validator's message. *)
Theorem no_schema_accepts_any_object rt tool :
  dict_get "args_schema" tool = None →
  (∀ args, validate_args_against_tool rt (JObj tool) args =
     match validate rt args default_args_schema with
     | Return _ => Return None
     | Raise (ValidationError m) => Return (Some m)
     | Raise e => Raise e
     end) ∧
  ((∀ ms, validate rt (JObj ms) default_args_schema = Return tt) →
   ∀ members, validate_args_against_tool rt (JObj tool) (JObj members) = Return None) ∧
  ((∀ args, is_dict args = false →
      ∃ m, validate rt args default_args_schema = Raise (ValidationError m)) →
   ∀ args, is_dict args = false →
     ∃ m, validate rt args default_args_schema = Raise (ValidationError m) ∧
          validate_args_against_tool rt (JObj tool) args = Return (Some m)).
Proof.
  intros Hnone.
  assert (Hdef : ∀ args, validate_args_against_tool rt (JObj tool) args =
     match validate rt args default_args_schema with
     | Return _ => Return None
     | Raise (ValidationError m) => Return (Some m)
     | Raise e => Raise e
     end).
  { intros args. unfold validate_args_against_tool, get_default.
    by rewrite Hnone. }
  split; [exact Hdef|]. split.
  - intros Hlib members. by rewrite Hdef, Hlib.
  - intros Hlib args Hargs. destruct (Hlib args Hargs) as [m Hm].
    exists m. split; [done|]. by rewrite Hdef, Hm.
Qed.


(** C7, where the code departs from it.  A reply that is valid JSON but
    not an object makes [decision.get] raise [AttributeError], which
    nothing catches: the loop ends there, whatever turns would follow. *)
Theorem non_object_reply_ends_session rt tools system_prompt t raw v rest :
  is_quit rt (strip rt (line t)) = false →
  call_llm rt (llm t) = Return (JStr raw) →
  json_loads rt raw = Return v →
  is_dict v = false →
  session rt tools system_prompt (t :: rest) =
    ([AskModel system_prompt (strip rt (line t)) 0], Crashed AttributeError).
Proof.
  intros Hquit Hllm Hloads Hv. simpl. unfold agent_turn.
  rewrite Hquit, Hllm. unfold loads. rewrite Hloads.
  by destruct v.
Qed.

(** ** The properties at sample inputs *)

Lemma closed_after_first_pass : closed after_first_pass.
Proof.
  unfold after_first_pass, discover_tools.
  destruct (discover_loop [echo_server] initial_state []) as [r st'] eqn:Hrun.
  by destruct (discover_loop_frame _ _ _ _ _ Hrun closed_initial) as (_ & ? & _).
Qed.

Lemma sample_validate_message instance schema msg :
  sample_validate instance schema = Raise (ValidationError msg) → msg ≠ "".
Proof.
  unfold sample_validate. destruct schema; try done.
  destruct (_ && _); [|done]. by intros [= <-].
Qed.

Lemma sample_validate_object table ms :
  validate (sample_runtime table) (JObj ms) default_args_schema = Return tt.
Proof. reflexivity. Qed.

Lemma http_post_salvages_body_witness :
  http_post error_with_body = Return (JObj [("error", JStr "boom")]) ∧
  http_post error_without_body = Raise JSONDecodeError.
Proof.
  split.
  - apply (proj1 (http_post_salvages_body error_with_body)
             {| status := 500; body := Some (JObj [("error", JStr "boom")]) |}).
    + intros i Hi. unfold MAX_RETRIES in Hi.
      destruct i as [|[|i]]; [reflexivity|reflexivity|lia].
    + reflexivity.
    + reflexivity.
  - apply (proj2 (proj2 (http_post_salvages_body error_without_body))
             {| status := 502; body := None |}).
    + intros i Hi. unfold MAX_RETRIES in Hi.
      destruct i as [|[|i]]; [reflexivity|reflexivity|lia].
    + reflexivity.
    + reflexivity.
Defined.

(** C2 as stated fails: on a second pass with the version unchanged, the
    descriptor returned for the server is a new object, location 5, not
    the one of the first pass, location 2, though it reads the same. *)
Lemma second_pass_returns_new_objects :
  (discover_tools [echo_server] initial_state).1 = Return [2] ∧
  cache_hit (tool_cache after_first_pass !! url echo_server) (JStr "1") = true ∧
  (discover_tools [echo_server] after_first_pass).1 = Return [5] ∧
  cell (heap (discover_tools [echo_server] after_first_pass).2) 5 =
    cell (heap after_first_pass) 2 ∧
  [5] ≠ [2].
Proof. vm_compute. repeat split; congruence. Qed.

Lemma unchanged_version_reuses_cached_list_witness :
  ∃ e, tool_cache after_first_pass !! url echo_server = Some e ∧
    tool_cache (discover_tools [echo_server] after_first_pass).2 !! url echo_server
      = Some e ∧
    value_at (heap (discover_tools [echo_server] after_first_pass).2) (tools e) =
      value_at (heap after_first_pass) (tools e) ∧
    cell (heap (discover_tools [echo_server] after_first_pass).2) <$>
      contributed (url echo_server)
        (heap (discover_tools [echo_server] after_first_pass).2) [5] =
    cell (heap after_first_pass) <$>
      contributed (url echo_server) (heap after_first_pass) [2] ∧
    Forall (λ l, l ∉ [2])
      (contributed (url echo_server)
         (heap (discover_tools [echo_server] after_first_pass).2) [5]).
Proof.
  apply (unchanged_version_reuses_cached_list
           [echo_server] [echo_server] initial_state [2] after_first_pass [5]
           (discover_tools [echo_server] after_first_pass).2
           echo_server echo_server
           (JArr [JObj [("name", JStr "echo")]]) (JStr "1")
           (JArr [JObj [("name", JStr "echo")]]) (JStr "1")).
  - vm_compute. reflexivity.
  - vm_compute. reflexivity.
  - apply closed_initial.
  - apply NoDup_singleton.
  - apply NoDup_singleton.
  - apply list_elem_of_here.
  - apply list_elem_of_here.
  - reflexivity.
  - vm_compute. reflexivity.
  - vm_compute. reflexivity.
  - vm_compute. reflexivity.
Defined.

Lemma changed_version_replaces_entry_witness :
  ∃ e, tool_cache (discover_tools [echo_server_v2] after_first_pass).2
         !! url echo_server_v2 = Some e ∧
    version e = JStr "2" ∧
    value_at (heap (discover_tools [echo_server_v2] after_first_pass).2) (tools e) =
      JArr [JObj [("name", JStr "echo")]; JObj [("name", JStr "get_time")]] ∧
    length (heap after_first_pass) ≤ tools e.
Proof.
  apply (changed_version_replaces_entry
           [echo_server_v2] after_first_pass [6; 7]
           (discover_tools [echo_server_v2] after_first_pass).2 echo_server_v2).
  - vm_compute. reflexivity.
  - apply closed_after_first_pass.
  - apply NoDup_singleton.
  - apply list_elem_of_here.
  - vm_compute. reflexivity.
  - vm_compute. reflexivity.
Defined.



Lemma tagging_leaves_cache_alone_witness :
  value_at (heap (discover_tools [echo_server_v2] after_first_pass).2) 1 =
    value_at (heap after_first_pass) 1 ∧
  value_at (heap after_first_pass) 1 = JArr [JObj [("name", JStr "echo")]] ∧
  untagged (value_at (heap after_first_pass) 1).
Proof.
  split; [|split; [reflexivity|]].
  - destruct (discover_tools [echo_server_v2] after_first_pass) as [r st'] eqn:Hrun.
    apply (proj1 (proj2 (tagging_leaves_cache_alone [echo_server_v2]
             after_first_pass r st' Hrun closed_after_first_pass))
             (url echo_server) {| version := JStr "1"; tools := 1 |}).
    vm_compute. reflexivity.
  - apply (proj2 (proj2 (proj2 (tagging_leaves_cache_alone [echo_server]
             initial_state (Return [2]) after_first_pass eq_refl closed_initial)))
             ) with (u := url echo_server)
                    (e := {| version := JStr "1"; tools := 1 |}).
    + intros u e He. unfold initial_state in He. simpl in He.
      by rewrite lookup_empty in He.
    + intros s fetched v Hin Hcat. apply list_elem_of_singleton in Hin. subst s.
      injection Hcat as <- _. intros items m [= <-] Hm.
      apply list_elem_of_singleton in Hm. by injection Hm as ->.
    + vm_compute. reflexivity.
Defined.

(** C8 as stated fails: a server may send the key "_server_url" in a
    descriptor of its own, and the cache holds what it sent. *)
Lemma cached_descriptor_with_server_url :
  tools <$> (tool_cache (discover_tools [self_tagging_server] initial_state).2
               !! url self_tagging_server) = Some 1 ∧
  value_at (heap (discover_tools [self_tagging_server] initial_state).2) 1 =
    JArr [JObj [("name", JStr "echo"); ("_server_url", JStr "http://elsewhere")]] ∧
  ¬ untagged (value_at (heap (discover_tools [self_tagging_server] initial_state).2) 1).
Proof.
  split; [vm_compute; reflexivity|]. split; [vm_compute; reflexivity|].
  intros Hun.
  specialize (Hun [JObj [("name", JStr "echo"); ("_server_url", JStr "http://elsewhere")]]
                  [("name", JStr "echo"); ("_server_url", JStr "http://elsewhere")]).
  assert (Hget : dict_get "_server_url"
            [("name", JStr "echo"); ("_server_url", JStr "http://elsewhere")] = None).
  { apply Hun; [vm_compute; reflexivity|]. apply list_elem_of_here. }
  discriminate Hget.
Qed.



Lemma invalid_args_never_reach_the_tool_witness :
  validate_args_against_tool (sample_runtime sample_table) add_numbers (JInt 5) =
    Return (Some "instance is not of type 'object'") ∧
  agent_turn (sample_runtime sample_table) [add_numbers] "prompt"
    (sample_turn "add" (decision_text "add_numbers" "5")) =
    ([AskModel "prompt" "add" 0;
      Say (ValidationFailed "instance is not of type 'object'")], Continue) ∧
  ∃ tool,
    find_tool [add_numbers] (JStr "add_numbers") (JStr "http://localhost:8001")
      = Return (Some tool) ∧
    validate_args_against_tool (sample_runtime sample_table) tool (JObj [])
      = Return None.
Proof.
  destruct (invalid_args_never_reach_the_tool (sample_runtime sample_table)
              sample_validate_message) as (Hmsg & Hturn & Hcall).
  split; [|split].
  - apply (Hmsg add_numbers (JInt 5) (JObj [("type", JStr "object")])).
    + reflexivity.
    + reflexivity.
  - apply (Hturn [add_numbers] "prompt"
             (sample_turn "add" (decision_text "add_numbers" "5"))
             (decision_text "add_numbers" "5")
             [("action", JStr "use_tool"); ("tool", JStr "add_numbers");
              ("server_url", JStr "http://localhost:8001"); ("args", JInt 5)]
             add_numbers).
    + vm_compute. reflexivity.
    + vm_compute. reflexivity.
    + vm_compute. reflexivity.
    + reflexivity.
    + reflexivity.
    + reflexivity.
    + vm_compute. reflexivity.
    + vm_compute. reflexivity.
  - apply (Hcall [add_numbers] "prompt"
             (sample_turn "add" (decision_text "add_numbers" "{}"))).
    vm_compute. apply list_elem_of_further, list_elem_of_here.
Defined.

Lemma falsy_tool_fields_are_incomplete_witness :
  agent_turn (sample_runtime sample_table) [add_numbers] "prompt"
    (sample_turn "add" (decision_text "" "{}")) =
  ([AskModel "prompt" "add" 0;
    Say (IncompleteToolCall
           (JObj [("action", JStr "use_tool"); ("tool", JStr "");
                  ("server_url", JStr "http://localhost:8001"); ("args", JObj [])]))],
   Continue).
Proof.
  apply (falsy_tool_fields_are_incomplete (sample_runtime sample_table)
           [add_numbers] "prompt" (sample_turn "add" (decision_text "" "{}"))
           (decision_text "" "{}")
           [("action", JStr "use_tool"); ("tool", JStr "");
            ("server_url", JStr "http://localhost:8001"); ("args", JObj [])] []).
  - vm_compute. reflexivity.
  - vm_compute. reflexivity.
  - vm_compute. reflexivity.
  - reflexivity.
  - left. reflexivity.
Defined.

Lemma sample_validate_refuses table args :
  is_dict args = false →
  ∃ m, validate (sample_runtime table) args default_args_schema
       = Raise (ValidationError m).
Proof. intros Hargs. destruct args; try done; by eexists. Qed.

Lemma no_schema_accepts_any_object_witness :
  validate_args_against_tool (sample_runtime sample_table)
    (JObj [("name", JStr "get_time"); ("_server_url", JStr "http://localhost:8000")])
    (JObj []) = Return None ∧
  ∃ m, validate (sample_runtime sample_table) (JInt 5) default_args_schema
         = Raise (ValidationError m) ∧
       validate_args_against_tool (sample_runtime sample_table)
         (JObj [("name", JStr "get_time");
                ("_server_url", JStr "http://localhost:8000")])
         (JInt 5) = Return (Some m).
Proof.
  split.
  - apply (proj1 (proj2 (no_schema_accepts_any_object (sample_runtime sample_table)
             [("name", JStr "get_time"); ("_server_url", JStr "http://localhost:8000")]
             eq_refl))).
    intros ms. reflexivity.
  - apply (proj2 (proj2 (no_schema_accepts_any_object (sample_runtime sample_table)
             [("name", JStr "get_time"); ("_server_url", JStr "http://localhost:8000")]
             eq_refl))).
    + apply sample_validate_refuses.
    + reflexivity.
Defined.

Lemma non_object_reply_ends_session_witness :
  session (sample_runtime sample_table) [add_numbers] "prompt"
    [sample_turn "what is 2 plus 3" "5"; sample_turn "thanks" "You are welcome."] =
  ([AskModel "prompt" "what is 2 plus 3" 0], Crashed AttributeError).
Proof.
  apply (non_object_reply_ends_session (sample_runtime sample_table) [add_numbers]
           "prompt" (sample_turn "what is 2 plus 3" "5") "5" (JInt 5)).
  - vm_compute. reflexivity.
  - vm_compute. reflexivity.
  - vm_compute. reflexivity.
  - reflexivity.
Defined.

(** ** Further properties of the HTTP helpers *)

Lemma attempt_cases i : i ≤ MAX_RETRIES → i = 0 ∨ i = 1 ∨ i = 2.
Proof. unfold MAX_RETRIES. lia. Qed.

(** X1. [http_get] returns the body of the first attempt that succeeds,
    within the three attempts it makes. *)
Theorem http_get_returns_first_success net i j :
  i ≤ MAX_RETRIES →
  (∀ k, k < i → raises (try_request (net k)) = true) →
  try_request (net i) = Return j →
  http_get net = Return j.
Proof.
  intros Hi Hfail Hok. unfold http_get, MAX_RETRIES. simpl.
  destruct (attempt_cases i Hi) as [->|[->| ->]].
  - by rewrite Hok.
  - pose proof (Hfail 0 ltac:(lia)) as H0.
    destruct (try_request (net 0)); [discriminate|]. by rewrite Hok.
  - pose proof (Hfail 0 ltac:(lia)) as H0.
    pose proof (Hfail 1 ltac:(lia)) as H1.
    destruct (try_request (net 0)); [discriminate|].
    destruct (try_request (net 1)); [discriminate|]. by rewrite Hok.
Qed.

Lemma http_get_returns_first_success_witness :
  http_get timeout_then_ok = Return (JObj [("ok", JBool true)]).
Proof.
  apply (http_get_returns_first_success timeout_then_ok 1).
  - unfold MAX_RETRIES. lia.
  - intros k Hk. destruct k; [reflexivity|lia].
  - reflexivity.
Defined.

(** X2. When the attempts before the last fail, [http_get] raises what
    the last attempt raises: the caller sees the last failure, not the
    first, and no body of an error response. *)
Theorem http_get_raises_last_error net e :
  (∀ k, k < MAX_RETRIES → raises (try_request (net k)) = true) →
  try_request (net MAX_RETRIES) = Raise e →
  http_get net = Raise e.
Proof.
  intros Hfail Hlast. unfold http_get, MAX_RETRIES in *. simpl.
  pose proof (Hfail 0 ltac:(lia)) as H0.
  pose proof (Hfail 1 ltac:(lia)) as H1.
  destruct (try_request (net 0)); [discriminate|].
  destruct (try_request (net 1)); [discriminate|].
  by rewrite Hlast.
Qed.

Lemma http_get_raises_last_error_witness :
  http_get timeouts_then_503 = Raise (HTTPError 503).
Proof.
  apply (http_get_raises_last_error timeouts_then_503).
  - intros k Hk. unfold MAX_RETRIES in Hk.
    destruct k as [|[|k]]; [reflexivity|reflexivity|lia].
  - reflexivity.
Defined.

(** X3. On the same answers of the network, [http_post] returns whatever
    [http_get] returns; the two differ only where [http_get] raises. *)
Theorem http_post_agrees_with_http_get net j :
  http_get net = Return j → http_post net = Return j.
Proof.
  unfold http_get, http_post, MAX_RETRIES. simpl.
  destruct (try_request (net 0)); [done|].
  destruct (try_request (net 1)); [done|].
  by destruct (try_request (net 2)).
Qed.

Lemma http_post_agrees_with_http_get_witness :
  http_post timeout_then_ok = Return (JObj [("ok", JBool true)]).
Proof.
  apply (http_post_agrees_with_http_get timeout_then_ok). reflexivity.
Defined.

(** X4. When every attempt fails, [http_post] returns the body of the
    last response any attempt brought, also when the attempts after it
    brought no response at all: the body of an earlier attempt. *)
Theorem http_post_returns_earlier_body net k r j :
  k ≤ MAX_RETRIES →
  (∀ i, i ≤ MAX_RETRIES → raises (try_request (net i)) = true) →
  net k = Response r →
  (∀ i, k < i → i ≤ MAX_RETRIES → ∃ e, net i = NoResponse e) →
  body r = Some j →
  http_post net = Return j.
Proof.
  intros Hk Hfail Hr Hlater Hbody.
  rewrite http_post_exhausted by done.
  assert (Hsal : salvage (Some r) = Return j).
  { simpl. unfold response_json. by rewrite Hbody. }
  unfold MAX_RETRIES in *.
  destruct (attempt_cases k Hk) as [->|[->| ->]].
  - destruct (Hlater 1 ltac:(lia) ltac:(lia)) as [e1 ->].
    destruct (Hlater 2 ltac:(lia) ltac:(lia)) as [e2 ->].
    by rewrite Hr.
  - destruct (Hlater 2 ltac:(lia) ltac:(lia)) as [e2 ->].
    by rewrite Hr.
  - by rewrite Hr.
Qed.

Lemma http_post_returns_earlier_body_witness :
  http_post error_then_down = Return (JObj [("error", JStr "boom")]).
Proof.
  apply (http_post_returns_earlier_body error_then_down 0
           {| status := 500; body := Some (JObj [("error", JStr "boom")]) |}).
  - unfold MAX_RETRIES. lia.
  - intros i Hi. unfold MAX_RETRIES in Hi.
    destruct i as [|[|[|i]]]; [reflexivity|reflexivity|reflexivity|lia].
  - reflexivity.
  - intros i Hlo Hhi. unfold MAX_RETRIES in Hhi.
    destruct i as [|[|[|i]]]; [lia| | |lia]; by exists ConnectionError.
  - reflexivity.
Defined.

(** X5. When no attempt brings a response, [http_post] raises
    [UnboundLocalError], its variable [r] never having been bound, where
    [http_get] raises the error of the last request. *)
Theorem http_post_without_response net :
  (∀ i, i ≤ MAX_RETRIES → ∃ e, net i = NoResponse e) →
  http_post net = Raise UnboundLocalError ∧
  ∃ e, net MAX_RETRIES = NoResponse e ∧ http_get net = Raise e.
Proof.
  intros Hdown. unfold MAX_RETRIES in *.
  destruct (Hdown 0 ltac:(lia)) as [e0 H0].
  destruct (Hdown 1 ltac:(lia)) as [e1 H1].
  destruct (Hdown 2 ltac:(lia)) as [e2 H2].
  unfold http_post, http_get, MAX_RETRIES. simpl.
  rewrite H0, H1, H2. simpl. split; [done|]. by exists e2.
Qed.

Lemma http_post_without_response_witness :
  http_post unreachable = Raise UnboundLocalError.
Proof.
  apply (http_post_without_response unreachable).
  intros i _. by exists ConnectionError.
Defined.

(** ** Further properties of discovery *)

Lemma discover_server_console s st acc r st' :
  discover_server s st acc = (r, st') →
  ∃ m, console st' = console st ++ [m].
Proof.
  unfold discover_server.
  destruct (http_get (initialize s)); [|intros [= <- <-]; by eexists].
  destruct (fetch_catalog s) as [[fetched v]|]; [|intros [= <- <-]; by eexists].
  destruct (alloc_json fetched (heap st)) as [h fresh].
  destruct (cache_hit (tool_cache st !! url s) v).
  - destruct (elements h _) as [ts|]; [|intros [= <- <-]; by eexists].
    destruct (tag_loop (url s) ts h acc). intros [= <- <-]. by eexists.
  - destruct (elements h _) as [ts|]; [|intros [= <- <-]; by eexists].
    destruct (tag_loop (url s) ts h acc). intros [= <- <-]. by eexists.
Qed.

Lemma discover_loop_console servers st acc res st' :
  discover_loop servers st acc = (Return res, st') →
  ∃ msgs, console st' = console st ++ msgs ∧ length msgs = length servers.
Proof.
  revert st acc. induction servers as [|s rest IH]; intros st acc Hrun; simpl in *.
  - injection Hrun as <- <-. exists []. by rewrite app_nil_r.
  - destruct (discover_server s st acc) as [r1 st1] eqn:Hstep.
    apply discover_server_console in Hstep as [m Hm].
    destruct r1 as [acc1|]; [|done].
    destruct (IH _ _ Hrun) as (msgs & Hmsgs & Hlen).
    exists (m :: msgs). rewrite Hmsgs, Hm, <- app_assoc. simpl.
    by rewrite Hlen.
Qed.

(** X6. A discovery pass that returns has printed exactly one message
    per server, whatever the number of requests it retried. *)
Theorem discovery_prints_one_line_per_server servers st res st' :
  discover_tools servers st = (Return res, st') →
  ∃ msgs, console st' = console st ++ msgs ∧ length msgs = length servers.
Proof. apply discover_loop_console. Qed.

Lemma discovery_prints_one_line_per_server_witness :
  ∃ msgs,
    console (discover_tools [down_server; echo_server] initial_state).2 =
      console initial_state ++ msgs ∧
    length msgs = length [down_server; echo_server].
Proof.
  apply (discovery_prints_one_line_per_server [down_server; echo_server]
           initial_state [2]).
  vm_compute. reflexivity.
Defined.

Lemma discover_server_unreachable s st acc :
  catalog s = None →
  ∃ m, warns_about s m ∧ discover_server s st acc = (Return acc, print m st).
Proof.
  unfold catalog, discover_server, warns_about.
  destruct (http_get (initialize s)) as [x|e].
  - destruct (fetch_catalog s) as [c|e]; [done|]. intros _.
    exists (WarnListTools (url s) e). split; [|done]. exists e. by right.
  - intros _. exists (WarnInitialize (url s) e). split; [|done]. exists e. by left.
Qed.

Lemma discover_loop_unreachable servers st acc :
  Forall (λ s, catalog s = None) servers →
  ∃ msgs, Forall2 warns_about servers msgs ∧
    discover_loop servers st acc =
      (Return acc,
       {| tool_cache := tool_cache st; heap := heap st;
          console := console st ++ msgs |}).
Proof.
  revert st. induction servers as [|s rest IH]; intros st Hall; simpl.
  - exists []. split; [constructor|]. rewrite app_nil_r. by destruct st.
  - apply Forall_cons in Hall as [Hs Hrest].
    destruct (discover_server_unreachable s st acc Hs) as (m & Hm & ->).
    destruct (IH (print m st) Hrest) as (msgs & Hmsgs & ->).
    exists (m :: msgs). split; [by constructor|].
    simpl. by rewrite <- app_assoc.
Qed.

(** X7. When no server answers, discovery returns no tool and leaves the
    cache and the heap as they are, so the entries of servers that are
    down stay cached; it prints one warning per server, naming it. *)
Theorem discovery_of_unreachable_servers servers st :
  Forall (λ s, reachable s = false) servers →
  ∃ msgs, Forall2 warns_about servers msgs ∧
    discover_tools servers st =
      (Return [],
       {| tool_cache := tool_cache st; heap := heap st;
          console := console st ++ msgs |}).
Proof.
  intros Hall. apply discover_loop_unreachable.
  eapply Forall_impl; [exact Hall|]. simpl. intros s Hs.
  unfold reachable in Hs. apply bool_decide_eq_false in Hs.
  destruct (catalog s); [|done]. destruct Hs. by eexists.
Qed.

Lemma discovery_of_unreachable_servers_witness :
  ∃ msgs, Forall2 warns_about [echo_server_down; down_server] msgs ∧
    discover_tools [echo_server_down; down_server] after_first_pass =
      (Return [],
       {| tool_cache := tool_cache after_first_pass;
          heap := heap after_first_pass;
          console := console after_first_pass ++ msgs |}).
Proof.
  apply (discovery_of_unreachable_servers [echo_server_down; down_server]
           after_first_pass).
  repeat constructor.
Defined.

(** X8. A catalog reply that is JSON but not an object counts as a
    failed catalog request: [tools_resp.get] raises [AttributeError]
    inside the [try], and the server is skipped with a warning. *)
Theorem non_object_catalog_is_skipped s st ping reply :
  http_get (initialize s) = Return ping →
  http_get (list_tools s) = Return reply →
  is_dict reply = false →
  discover_tools [s] st =
    (Return [], print (WarnListTools (url s) AttributeError) st).
Proof.
  intros Hping Hreply Hshape.
  unfold discover_tools. simpl. unfold discover_server, fetch_catalog.
  rewrite Hping, Hreply. by destruct reply.
Qed.

Lemma non_object_catalog_is_skipped_witness :
  discover_tools [array_reply_server] initial_state =
    (Return [],
     print (WarnListTools (url array_reply_server) AttributeError) initial_state).
Proof.
  apply (non_object_catalog_is_skipped array_reply_server initial_state
           (JObj []) (JArr [JStr "echo"])).
  - reflexivity.
  - reflexivity.
  - reflexivity.
Defined.



(** X10. A server whose catalog carries no version is compared as
    [None == None]: once it has an entry cached without a version, every
    later pass keeps that entry and its list, whatever tools the server
    sends. *)
Theorem versionless_server_is_never_refreshed
    servers st res st' s ping tools_resp e :
  discover_tools servers st = (Return res, st') →
  closed st →
  NoDup (url <$> servers) →
  s ∈ servers →
  http_get (initialize s) = Return ping →
  http_get (list_tools s) = Return (JObj tools_resp) →
  dict_get "tool_schema_version" tools_resp = None →
  tool_cache st !! url s = Some e →
  version e = JNull →
  tool_cache st' !! url s = Some e ∧
  value_at (heap st') (tools e) = value_at (heap st) (tools e).
Proof.
  intros Hrun Hc Hnd Hin Hping Hreply Hnov He Hve.
  destruct (discover_tools_contributions _ _ _ _ Hrun Hc Hnd) as [_ Hpass].
  specialize (Hpass s Hin). unfold pass_for, catalog, fetch_catalog in Hpass.
  rewrite Hping, Hreply in Hpass. unfold get_or_none in Hpass.
  rewrite Hnov, He in Hpass. simpl in Hpass. rewrite Hve in Hpass. simpl in Hpass.
  destruct Hpass as (e' & vs & He' & [[= <-] Hsame] & _).
  done.
Qed.

Lemma versionless_server_is_never_refreshed_witness :
  tool_cache (discover_tools [versionless_server_changed] after_versionless_pass).2
    !! url versionless_server_changed = Some {| version := JNull; tools := 1 |} ∧
  value_at (heap (discover_tools [versionless_server_changed] after_versionless_pass).2) 1
    = value_at (heap after_versionless_pass) 1.
Proof.
  apply (versionless_server_is_never_refreshed [versionless_server_changed]
           after_versionless_pass [5]
           (discover_tools [versionless_server_changed] after_versionless_pass).2
           versionless_server_changed (JObj [])
           [("tools", JArr [JObj [("name", JStr "new_tool")]])]
           {| version := JNull; tools := 1 |}).
  - vm_compute. reflexivity.
  - unfold after_versionless_pass, discover_tools.
    destruct (discover_loop [versionless_server] initial_state []) as [r st'] eqn:Hrun.
    by destruct (discover_loop_frame _ _ _ _ _ Hrun closed_initial) as (_ & ? & _).
  - apply NoDup_singleton.
  - apply list_elem_of_here.
  - reflexivity.
  - reflexivity.
  - reflexivity.
  - vm_compute. reflexivity.
  - reflexivity.
Defined.

Lemma discover_loop_tags servers st acc res st' :
  discover_loop servers st acc = (Return res, st') → closed st →
  ∃ new, res = acc ++ new ∧
    Forall (λ l, length (heap st) ≤ l < length (heap st') ∧
              ∃ s m, s ∈ servers ∧ reachable s = true ∧
                cell (heap st') l = tag (url s) m) new.
Proof.
  revert st acc. induction servers as [|s rest IH]; intros st acc Hrun Hc.
  - simpl in Hrun. injection Hrun as <- <-. exists []. by rewrite app_nil_r.
  - simpl in Hrun.
    destruct (discover_server s st acc) as [r1 st1] eqn:Hstep.
    apply discover_server_step in Hstep as (Hp & Hc1 & _ & Hcase); [|done].
    destruct r1 as [acc1|]; [|done].
    pose proof (discover_loop_frame _ _ _ _ _ Hrun Hc1) as (Hp' & _ & _).
    destruct (IH _ _ Hrun Hc1) as (new2 & -> & Hnew2).
    assert (Hlen1 : length (heap st) ≤ length (heap st1)).
    { destruct Hp as [k ->]. rewrite length_app. lia. }
    assert (Hlen2 : length (heap st1) ≤ length (heap st')).
    { destruct Hp' as [k ->]. rewrite length_app. lia. }
    assert (∃ new1, acc1 = acc ++ new1 ∧
              Forall (λ l, length (heap st) ≤ l < length (heap st1) ∧
                        ∃ m, reachable s = true ∧ cell (heap st1) l = tag (url s) m)
                new1) as (new1 & -> & Hnew1).
    { destruct (catalog s) as [[fetched v]|] eqn:Hcat.
      - destruct Hcase as (e & _ & _ & Hout).
        destruct (tagged (url s) (value_at (heap st1) (tools e))) as [vs|] eqn:Htag;
          [|done].
        destruct Hout as (new1 & [= ->] & Hvals & Hn).
        exists new1. split; [done|].
        apply tagged_Forall in Htag. rewrite <- Hvals in Htag.
        apply Forall_forall. intros l Hl.
        rewrite Forall_forall in Hn. rewrite Forall_forall in Htag.
        split; [by apply Hn|].
        destruct (Htag (cell (heap st1) l)) as [m Hm];
          [by apply list_elem_of_fmap_2|]. exists m.
        split; [|done]. unfold reachable. apply bool_decide_eq_true.
        rewrite Hcat. by eexists.
      - destruct Hcase as ([= ->] & _ & _). exists []. by rewrite app_nil_r. }
    exists (new1 ++ new2). rewrite app_assoc. split; [done|].
    apply Forall_app. split.
    + eapply Forall_impl; [exact Hnew1|]. simpl.
      intros l (Hl & m & Hr & Hm). split; [lia|].
      exists s, m. split; [by left|]. split; [done|].
      rewrite <- Hm. apply cell_prefix; [done|lia].
    + eapply Forall_impl; [exact Hnew2|]. simpl.
      intros l (Hl & s' & m & Hin & Hr & Hm). split; [lia|].
      exists s', m. split; [by right|done].
Qed.

(** X11. Every descriptor a discovery pass returns is a dict whose
    "_server_url" is the url of a server of the pass that answered; a
    "_server_url" the server itself sent is overwritten. *)
Theorem returned_tools_carry_their_server servers st res st' :
  discover_tools servers st = (Return res, st') →
  closed st →
  Forall (λ l, ∃ s m, s ∈ servers ∧ reachable s = true ∧
            cell (heap st') l = JObj m ∧
            dict_get "_server_url" m = Some (JStr (url s))) res.
Proof.
  intros Hrun Hc.
  destruct (discover_loop_tags _ _ _ _ _ Hrun Hc) as (new & -> & Hnew).
  simpl. eapply Forall_impl; [exact Hnew|]. simpl.
  intros l (_ & s & m & Hin & Hr & Hm).
  exists s, (dict_set "_server_url" (JStr (url s)) m).
  split; [done|]. split; [done|]. split; [done|]. apply dict_get_set.
Qed.

Lemma returned_tools_carry_their_server_witness :
  Forall (λ l, ∃ s m, s ∈ [self_tagging_server] ∧ reachable s = true ∧
            cell (heap (discover_tools [self_tagging_server] initial_state).2) l
              = JObj m ∧
            dict_get "_server_url" m = Some (JStr (url s))) [2].
Proof.
  apply (returned_tools_carry_their_server [self_tagging_server] initial_state [2]).
  - vm_compute. reflexivity.
  - apply closed_initial.
Defined.

Lemma dict_get_set_other k key x m :
  k ≠ key → dict_get k (dict_set key x m) = dict_get k m.
Proof.
  intros Hne. induction m as [|[k0 v0] rest IH]; simpl.
  - destruct (String.eqb key k) eqn:E; [|done].
    apply String.eqb_eq in E. by subst.
  - destruct (String.eqb k0 key) eqn:E; simpl.
    + apply String.eqb_eq in E. subst k0.
      destruct (String.eqb key k) eqn:E'; [|done].
      apply String.eqb_eq in E'. by subst.
    + destruct (String.eqb k0 k); [done|apply IH].
Qed.

(** X12. The tagged copy of a descriptor reads as the descriptor at
    every key but "_server_url", where it reads the url. *)
Theorem tag_keeps_other_members u m k :
  item k (tag u m) =
  if String.eqb k "_server_url" then Some (JStr u) else dict_get k m.
Proof.
  unfold tag. simpl. destruct (String.eqb k "_server_url") eqn:E.
  - apply String.eqb_eq in E. subst k. apply dict_get_set.
  - apply dict_get_set_other. intros ->. by rewrite String.eqb_refl in E.
Qed.

Lemma discover_loop_keeps servers st acc r st' :
  discover_loop servers st acc = (r, st') → closed st →
  ∀ u, is_Some (tool_cache st !! u) → is_Some (tool_cache st' !! u).
Proof.
  revert st acc. induction servers as [|s rest IH]; intros st acc Hrun Hc u Hu.
  - simpl in Hrun. by injection Hrun as <- <-.
  - simpl in Hrun.
    destruct (discover_server s st acc) as [r1 st1] eqn:Hstep.
    apply discover_server_step in Hstep as (_ & Hc1 & Hother & Hcase); [|done].
    assert (Hu1 : is_Some (tool_cache st1 !! u)).
    { destruct (decide (u = url s)) as [->|Hne]; [|by rewrite Hother].
      destruct (catalog s) as [[fetched v]|].
      - destruct Hcase as (e & -> & _). by eexists.
      - destruct Hcase as (_ & -> & _). done. }
    destruct r1 as [acc1|]; [by eapply IH|]. by injection Hrun as <- <-.
Qed.

(** X13. Discovery never drops a cache entry, and a url enters the
    cache only for a server of the pass that answered. *)
Theorem discovery_never_evicts servers st r st' :
  discover_tools servers st = (r, st') →
  closed st →
  (∀ u, is_Some (tool_cache st !! u) → is_Some (tool_cache st' !! u)) ∧
  (∀ u, is_Some (tool_cache st' !! u) →
     is_Some (tool_cache st !! u) ∨
     ∃ s, s ∈ servers ∧ url s = u ∧ reachable s = true).
Proof.
  intros Hrun Hc. split.
  - by eapply discover_loop_keeps.
  - intros u [e He].
    destruct (discover_loop_entries _ _ _ _ _ Hrun Hc u e He)
      as [Hold|(s & fetched & Hin & Hu & Hcat & _)].
    + left. by eexists.
    + right. exists s. split; [done|]. split; [done|].
      unfold reachable. apply bool_decide_eq_true. rewrite Hcat. by eexists.
Qed.

Lemma discovery_never_evicts_witness :
  is_Some (tool_cache (discover_tools [echo_server_down; down_server]
                         after_first_pass).2 !! url echo_server).
Proof.
  apply (proj1 (discovery_never_evicts [echo_server_down; down_server]
                  after_first_pass (Return [])
                  (discover_tools [echo_server_down; down_server] after_first_pass).2
                  eq_refl closed_after_first_pass) (url echo_server)).
  vm_compute. by eexists.
Defined.

(** ** Further properties of the agent loop *)

Lemma tool_lines_named rt m :
  is_Some (dict_get "name" m) → is_Some (dict_get "_server_url" m) →
  ∃ ls, tool_lines rt (JObj m) = Return ls.
Proof.
  intros [name Hname] [u Hu]. unfold tool_lines. simpl.
  rewrite Hname, Hu. by eexists.
Qed.

Lemma tool_lines_nameless rt m :
  dict_get "name" m = None → tool_lines rt (JObj m) = Raise (KeyError "name").
Proof. intros Hname. unfold tool_lines. simpl. by rewrite Hname. Qed.

Lemma mapM_tool_lines_named rt tools :
  Forall discovered_shape tools →
  Forall (λ t, is_Some (item "name" t)) tools →
  ∃ ls, mapM (tool_lines rt) tools = Return ls.
Proof.
  induction tools as [|t rest IH]; intros Hshape Hnamed; simpl.
  - by eexists.
  - apply Forall_cons in Hshape as [(m & -> & Hu) Hshape].
    apply Forall_cons in Hnamed as [Hname Hnamed].
    destruct (tool_lines_named rt m Hname Hu) as [ls ->].
    destruct (IH Hshape Hnamed) as [lss ->]. by eexists.
Qed.

Lemma mapM_tool_lines_nameless rt tools :
  Forall discovered_shape tools →
  Exists (λ t, item "name" t = None) tools →
  mapM (tool_lines rt) tools = Raise (KeyError "name").
Proof.
  induction tools as [|t rest IH]; intros Hshape Hex; simpl.
  - by apply Exists_nil in Hex.
  - apply Forall_cons in Hshape as [(m & -> & Hu) Hshape].
    destruct (dict_get "name" m) as [name|] eqn:Hname.
    + destruct (tool_lines_named rt m) as [ls ->]; [by rewrite Hname|done|].
      apply Exists_cons in Hex as [Hhead|Hrest].
      * simpl in Hhead. congruence.
      * by rewrite (IH Hshape Hrest).
    + by rewrite tool_lines_nameless.
Qed.

(** X14. For descriptors as discovery returns them, the system prompt
    is built when every tool has a "name", and building it raises
    [KeyError] on "name" as soon as one has none. *)
Theorem prompt_needs_tool_names rt tools :
  Forall discovered_shape tools →
  (Forall (λ t, is_Some (item "name" t)) tools →
     ∃ system_prompt,
       build_system_prompt_from_tools rt tools = Return system_prompt) ∧
  (Exists (λ t, item "name" t = None) tools →
     build_system_prompt_from_tools rt tools = Raise (KeyError "name")).
Proof.
  intros Hshape. unfold build_system_prompt_from_tools. split.
  - intros Hnamed.
    destruct (mapM_tool_lines_named rt tools Hshape Hnamed) as [ls ->].
    by eexists.
  - intros Hex. by rewrite mapM_tool_lines_nameless.
Qed.

Lemma sample_tools_shape :
  Forall discovered_shape
    [add_numbers; JObj [("_server_url", JStr "http://localhost:8006")]].
Proof.
  apply Forall_cons. split; [eexists; split; [reflexivity|by eexists]|].
  apply Forall_cons. split; [eexists; split; [reflexivity|by eexists]|].
  apply Forall_nil_2.
Qed.

Lemma add_numbers_shape : Forall discovered_shape [add_numbers].
Proof.
  apply Forall_cons. split; [eexists; split; [reflexivity|by eexists]|].
  apply Forall_nil_2.
Qed.

Lemma prompt_needs_tool_names_witness :
  (∃ system_prompt,
     build_system_prompt_from_tools (sample_runtime sample_table) [add_numbers]
       = Return system_prompt) ∧
  build_system_prompt_from_tools (sample_runtime sample_table)
    [add_numbers; JObj [("_server_url", JStr "http://localhost:8006")]]
    = Raise (KeyError "name").
Proof.
  split.
  - apply (proj1 (prompt_needs_tool_names (sample_runtime sample_table)
                    [add_numbers] add_numbers_shape)).
    apply Forall_cons. split; [by eexists|apply Forall_nil_2].
  - apply (proj2 (prompt_needs_tool_names (sample_runtime sample_table)
                    [add_numbers; JObj [("_server_url", JStr "http://localhost:8006")]]
                    sample_tools_shape)).
    apply Exists_cons_tl, Exists_cons_hd. reflexivity.
Defined.

(** X15. When no server answers, [agent_loop] prints the warnings and
    "No tools discovered" and returns, without reading a line or calling
    the model, whatever input is waiting. *)
Theorem agent_loop_without_servers rt servers st :
  Forall (λ s, reachable s = false) servers →
  ∃ msgs, Forall2 warns_about servers msgs ∧
    ∀ turns,
      agent_loop rt servers st turns =
        ((Say <$> console st ++ msgs) ++ [Say NoToolsDiscovered], Exited).
Proof.
  intros Hall.
  assert (Hcat : Forall (λ s, catalog s = None) servers).
  { eapply Forall_impl; [exact Hall|]. simpl. intros s Hs.
    unfold reachable in Hs. apply bool_decide_eq_false in Hs.
    destruct (catalog s); [|done]. destruct Hs. by eexists. }
  destruct (discover_loop_unreachable servers st [] Hcat) as (msgs & Hmsgs & Hrun).
  exists msgs. split; [done|]. intros turns.
  unfold agent_loop, discover_tools. by rewrite Hrun.
Qed.

Lemma agent_loop_without_servers_witness :
  ∃ msgs, Forall2 warns_about [down_server] msgs ∧
    ∀ turns,
      agent_loop (sample_runtime sample_table) [down_server] initial_state turns =
        ((Say <$> console initial_state ++ msgs) ++ [Say NoToolsDiscovered], Exited).
Proof.
  apply (agent_loop_without_servers (sample_runtime sample_table) [down_server]
           initial_state).
  repeat constructor.
Defined.

(** X16. When a discovered tool has no "name", [agent_loop] ends with
    [KeyError] while it builds the prompt: after the messages of
    discovery, before the first line is read. *)
Theorem agent_loop_nameless_tool rt servers st res st' :
  discover_tools servers st = (Return res, st') →
  closed st →
  Exists (λ l, item "name" (cell (heap st') l) = None) res →
  ∀ turns,
    agent_loop rt servers st turns = (Say <$> console st', Crashed (KeyError "name")).
Proof.
  intros Hrun Hc Hex turns.
  destruct (discover_loop_tags _ _ _ _ _ Hrun Hc) as (new & Hres & Hnew).
  simpl in Hres. subst new.
  unfold agent_loop. rewrite Hrun.
  assert (Hne : truthy (JArr (cell (heap st') <$> res)) = true).
  { destruct res; [by apply Exists_nil in Hex|done]. }
  rewrite Hne. simpl.
  unfold build_system_prompt_from_tools.
  rewrite mapM_tool_lines_nameless; [done| |].
  - apply Forall_fmap. eapply Forall_impl; [exact Hnew|]. simpl.
    intros l (_ & s & m & _ & _ & ->).
    exists (dict_set "_server_url" (JStr (url s)) m). split; [done|].
    rewrite dict_get_set. by eexists.
  - by apply Exists_fmap.
Qed.

Lemma agent_loop_nameless_tool_witness :
  agent_loop (sample_runtime sample_table) [nameless_tool_server] initial_state
    [sample_turn "hello" "unused"]
  = (Say <$> console (discover_tools [nameless_tool_server] initial_state).2,
     Crashed (KeyError "name")).
Proof.
  apply (agent_loop_nameless_tool (sample_runtime sample_table)
           [nameless_tool_server] initial_state [2]).
  - vm_compute. reflexivity.
  - apply closed_initial.
  - apply Exists_cons_hd. vm_compute. reflexivity.
Defined.

Lemma session_app rt tools system_prompt ts rest :
  Forall (λ t, (agent_turn rt tools system_prompt t).2 = Continue) ts →
  session rt tools system_prompt (ts ++ rest) =
  (mjoin ((λ t, (agent_turn rt tools system_prompt t).1) <$> ts)
     ++ (session rt tools system_prompt rest).1,
   (session rt tools system_prompt rest).2).
Proof.
  induction ts as [|t ts IH]; intros Hall; simpl.
  - by destruct (session rt tools system_prompt rest).
  - apply Forall_cons in Hall as [Ht Hts].
    destruct (agent_turn rt tools system_prompt t) as [evs c] eqn:Hturn.
    simpl in Ht. subst c.
    rewrite (IH Hts). simpl. by rewrite <- app_assoc.
Qed.

(** X17. A line that reads "quit" or "exit" once stripped and lowered
    ends the session: after the turns before it, nothing more is printed
    or called, and the turns after it are not read. *)
Theorem quit_ends_the_session rt tools system_prompt ts q rest :
  Forall (λ t, (agent_turn rt tools system_prompt t).2 = Continue) ts →
  is_quit rt (strip rt (line q)) = true →
  session rt tools system_prompt (ts ++ q :: rest) =
    (mjoin ((λ t, (agent_turn rt tools system_prompt t).1) <$> ts), Exited).
Proof.
  intros Hall Hquit. rewrite session_app by done. simpl.
  unfold agent_turn at 2 3. rewrite Hquit. simpl. by rewrite app_nil_r.
Qed.

Lemma quit_ends_the_session_witness :
  session (sample_runtime sample_table) [add_numbers] "prompt"
    ([sample_turn "hello" "Hi, how can I help?"]
       ++ sample_turn "quit" "unused" :: [sample_turn "more" "unused"]) =
  (mjoin ((λ t, (agent_turn (sample_runtime sample_table) [add_numbers] "prompt" t).1)
            <$> [sample_turn "hello" "Hi, how can I help?"]), Exited).
Proof.
  apply (quit_ends_the_session (sample_runtime sample_table) [add_numbers] "prompt"
           [sample_turn "hello" "Hi, how can I help?"]
           (sample_turn "quit" "unused") [sample_turn "more" "unused"]).
  - apply Forall_cons. split; [vm_compute; reflexivity|apply Forall_nil_2].
  - vm_compute. reflexivity.
Defined.

Lemma find_tool_split tools tool_name server_url t :
  find_tool tools tool_name server_url = Return (Some t) →
  ∃ before after, tools = before ++ t :: after ∧
    matches t tool_name server_url = true ∧
    Forall (λ x, matches x tool_name server_url = false) before.
Proof.
  induction tools as [|t0 rest IH]; simpl; [done|].
  unfold matches at 1.
  destruct (subscript t0 "name") as [name|] eqn:Hname; [|done].
  destruct (py_eq name tool_name) eqn:Hn.
  - destruct (subscript t0 "_server_url") as [u|] eqn:Hu; [|done].
    destruct (py_eq u server_url) eqn:Hurl.
    + intros [= <-]. exists [], rest. split; [done|]. split; [|constructor].
      unfold matches. by rewrite Hname, Hu, Hn, Hurl.
    + intros Hfind. destruct (IH Hfind) as (before & after & -> & Hm & Hb).
      exists (t0 :: before), after. split; [done|]. split; [done|].
      constructor; [|done]. unfold matches. by rewrite Hname, Hu, Hn, Hurl.
  - intros Hfind. destruct (IH Hfind) as (before & after & -> & Hm & Hb).
    exists (t0 :: before), after. split; [done|]. split; [done|].
    constructor; [|done]. unfold matches. rewrite Hname, Hn.
    by destruct (subscript t0 "_server_url").
Qed.

Lemma find_tool_none tools tool_name server_url :
  find_tool tools tool_name server_url = Return None →
  Forall (λ x, matches x tool_name server_url = false) tools.
Proof.
  induction tools as [|t0 rest IH]; simpl; [constructor|].
  destruct (subscript t0 "name") as [name|] eqn:Hname; [|done].
  destruct (py_eq name tool_name) eqn:Hn.
  - destruct (subscript t0 "_server_url") as [u|] eqn:Hu; [|done].
    destruct (py_eq u server_url) eqn:Hurl; [done|].
    intros Hfind. constructor; [|by apply IH].
    unfold matches. by rewrite Hname, Hu, Hn, Hurl.
  - intros Hfind. constructor; [|by apply IH].
    unfold matches. rewrite Hname, Hn. by destruct (subscript t0 "_server_url").
Qed.

Lemma subscript_raises t key e :
  subscript t key = Raise e → item key t = None.
Proof.
  destruct t; simpl; try done. by destruct (dict_get key members).
Qed.

Lemma find_tool_raises tools tool_name server_url e :
  find_tool tools tool_name server_url = Raise e →
  ∃ t, t ∈ tools ∧ (item "name" t = None ∨ item "_server_url" t = None).
Proof.
  induction tools as [|t0 rest IH]; simpl; [done|].
  destruct (subscript t0 "name") as [name|e0] eqn:Hname.
  2:{ intros _. exists t0. split; [by left|]. left. by eapply subscript_raises. }
  assert (Hrest : find_tool rest tool_name server_url = Raise e →
    ∃ t, t ∈ t0 :: rest ∧ (item "name" t = None ∨ item "_server_url" t = None)).
  { intros Hfind. destruct (IH Hfind) as (t & Hin & Ht). exists t.
    split; [by right|done]. }
  destruct (py_eq name tool_name); [|done].
  destruct (subscript t0 "_server_url") as [u|e0] eqn:Hu.
  - by destruct (py_eq u server_url).
  - intros _. exists t0. split; [by left|]. right. by eapply subscript_raises.
Qed.

(** X18. [find_tool], the lookup of the loop, returns the first
    discovered tool whose name and server url both equal those asked
    for; it returns [None] when no tool has both; and it raises only
    when a tool lacks one of the two keys. *)
Theorem find_tool_returns_first_match tools tool_name server_url :
  match find_tool tools tool_name server_url with
  | Return (Some t) =>
      ∃ before after, tools = before ++ t :: after ∧
        matches t tool_name server_url = true ∧
        Forall (λ x, matches x tool_name server_url = false) before
  | Return None => Forall (λ x, matches x tool_name server_url = false) tools
  | Raise _ =>
      ∃ t, t ∈ tools ∧ (item "name" t = None ∨ item "_server_url" t = None)
  end.
Proof.
  destruct (find_tool tools tool_name server_url) as [[t|]|e] eqn:Hfind.
  - by apply find_tool_split.
  - by apply find_tool_none.
  - by eapply find_tool_raises.
Qed.

Lemma call_llm_try_request rt a :
  call_llm rt a =
  match try_request a with
  | Return parsed =>
      Return (default (JStr (json_dumps rt true parsed)) (content_of parsed))
  | Raise e => Raise e
  end.
Proof.
  unfold call_llm, try_request. destruct a as [e|r]; [done|].
  destruct (raise_for_status r); [|done].
  by destruct (response_json r).
Qed.

(** X19. When the chat completion has a content that is not a string,
    a null for one, [call_llm] returns it as it is and [json.loads]
    raises [TypeError], which ends the session. *)
Theorem non_string_content_ends_session
    rt tools system_prompt t parsed content rest :
  is_quit rt (strip rt (line t)) = false →
  try_request (llm t) = Return parsed →
  content_of parsed = Some content →
  (∀ raw, content ≠ JStr raw) →
  session rt tools system_prompt (t :: rest) =
    ([AskModel system_prompt (strip rt (line t)) 0], Crashed TypeError).
Proof.
  intros Hquit Hreq Hcontent Hnot. simpl. unfold agent_turn.
  rewrite Hquit, call_llm_try_request, Hreq, Hcontent. simpl.
  destruct content; try done. by destruct (Hnot s).
Qed.

Lemma non_string_content_ends_session_witness :
  session (sample_runtime sample_table) [add_numbers] "prompt"
    [turn_with_null_content "hello"; sample_turn "more" "unused"] =
  ([AskModel "prompt" "hello" 0], Crashed TypeError).
Proof.
  apply (non_string_content_ends_session (sample_runtime sample_table)
           [add_numbers] "prompt" (turn_with_null_content "hello")
           (JObj [("choices", JArr [JObj [("message", JObj [("content", JNull)])]])])
           JNull).
  - vm_compute. reflexivity.
  - reflexivity.
  - reflexivity.
  - intros raw. discriminate.
Defined.

Lemma turn_use_tool rt tools system_prompt t raw d :
  is_quit rt (strip rt (line t)) = false →
  call_llm rt (llm t) = Return (JStr raw) →
  json_loads rt raw = Return (JObj d) →
  dict_get "action" d = Some (JStr "use_tool") →
  agent_turn rt tools system_prompt t =
  (AskModel system_prompt (strip rt (line t)) 0
     :: (use_tool rt tools system_prompt (strip rt (line t)) d t).1,
   (use_tool rt tools system_prompt (strip rt (line t)) d t).2).
Proof.
  intros Hquit Hllm Hloads Haction. unfold agent_turn.
  rewrite Hquit, Hllm. unfold loads. rewrite Hloads.
  unfold decide_action, get_or_none at 1 2. rewrite Haction. simpl.
  by destruct (use_tool rt tools system_prompt (strip rt (line t)) d t).
Qed.







Lemma py_eq_str a s : py_eq a (JStr s) = true → a = JStr s.
Proof.
  destruct a; simpl; try done.
  intros H. apply String.eqb_eq in H. by subst.
Qed.

Lemma agent_turn_call rt tools system_prompt t server_url tool_name args :
  CallTool server_url tool_name args ∈ (agent_turn rt tools system_prompt t).1 →
  ∃ d tool,
    dict_get "action" d = Some (JStr "use_tool") ∧
    server_url = get_or_none "server_url" d ∧
    tool_name = get_or_none "tool" d ∧
    args = default (JObj []) (dict_get "args" d) ∧
    find_tool tools tool_name server_url = Return (Some tool).
Proof.
  unfold agent_turn.
  destruct (is_quit rt (strip rt (line t))); [by intros ?%elem_of_nil|].
  destruct (call_llm rt (llm t)) as [llm_reply|e].
  2:{ simpl. intros Hin. repeat (apply elem_of_cons in Hin as [?|Hin]; [done|]).
      by apply elem_of_nil in Hin. }
  destruct (loads rt llm_reply) as [decision|e].
  2:{ destruct e; simpl; intros Hin;
      repeat (apply elem_of_cons in Hin as [?|Hin]; [done|]);
      by apply elem_of_nil in Hin. }
  destruct (decide_action rt tools system_prompt (strip rt (line t)) decision t)
    as [evs c] eqn:Hdec. simpl.
  intros Hin. apply elem_of_cons in Hin as [?|Hin]; [done|].
  unfold decide_action in Hdec.
  assert (Hno : ∀ m : message, CallTool server_url tool_name args ∈ [Say m] → False).
  { intros m Hm. apply elem_of_cons in Hm as [?|Hm]; [done|].
    by apply elem_of_nil in Hm. }
  destruct decision as [ | | | | | |d];
    try (injection Hdec as <- <-; by apply elem_of_nil in Hin).
  destruct (py_eq (get_or_none "action" d) (JStr "none"));
    [injection Hdec as <- <-; by apply Hno in Hin|].
  destruct (py_eq (get_or_none "action" d) (JStr "use_tool")) eqn:Haction;
    [|injection Hdec as <- <-; by apply Hno in Hin].
  simpl in Hdec. unfold use_tool in Hdec.
  destruct (negb (truthy (get_or_none "tool" d))
            || negb (truthy (get_or_none "server_url" d)));
    [injection Hdec as <- <-; by apply Hno in Hin|].
  destruct (find_tool tools (get_or_none "tool" d) (get_or_none "server_url" d))
    as [found|e] eqn:Hfind;
    [|injection Hdec as <- <-; by apply elem_of_nil in Hin].
  destruct found as [tool|];
    [|injection Hdec as <- <-; by apply Hno in Hin].
  destruct (negb (truthy (default JNull (Some tool))));
    [injection Hdec as <- <-; by apply Hno in Hin|].
  simpl in Hdec.
  destruct (validate_args_against_tool rt tool (default (JObj []) (dict_get "args" d)))
    as [err|e];
    [|injection Hdec as <- <-; by apply elem_of_nil in Hin].
  destruct (truthy_message err);
    [injection Hdec as <- <-; by apply Hno in Hin|].
  assert (Hcall : CallTool server_url tool_name args =
                  CallTool (get_or_none "server_url" d) (get_or_none "tool" d)
                    (default (JObj []) (dict_get "args" d))).
  { destruct (http_post (tool_call t)) as [tool_result|e];
      injection Hdec as <- <-.
    - apply elem_of_cons in Hin as [?|Hin]; [done|].
      unfold summarize in Hin. apply elem_of_app in Hin as [Hin|Hin].
      + repeat (apply elem_of_cons in Hin as [?|Hin]; [done|]).
        by apply elem_of_nil in Hin.
      + destruct (call_llm rt (followup t));
          repeat (apply elem_of_cons in Hin as [?|Hin]; [done|]);
          by apply elem_of_nil in Hin.
    - apply elem_of_cons in Hin as [?|Hin]; [done|]. by apply Hno in Hin. }
  injection Hcall as -> -> ->. exists d, tool.
  split; [|done].
  apply py_eq_str in Haction. unfold get_or_none in Haction.
  by destruct (dict_get "action" d) as [x|]; [simpl in Haction; subst|].
Qed.

(** X22. Whatever the model replies, a turn calls only a discovered
    tool: some descriptor of the list has the name and the server url
    the call goes to. *)
Theorem only_discovered_tools_are_called
    rt tools system_prompt t server_url tool_name args :
  CallTool server_url tool_name args ∈ (agent_turn rt tools system_prompt t).1 →
  ∃ tool, tool ∈ tools ∧ matches tool tool_name server_url = true.
Proof.
  intros Hin.
  destruct (agent_turn_call _ _ _ _ _ _ _ Hin) as (d & tool & _ & _ & _ & _ & Hfind).
  destruct (find_tool_split _ _ _ _ Hfind) as (before & after & -> & Hm & _).
  exists tool. split; [|done]. apply elem_of_app. right. by left.
Qed.

Lemma only_discovered_tools_are_called_witness :
  ∃ tool, tool ∈ [add_numbers] ∧
    matches tool (JStr "add_numbers") (JStr "http://localhost:8001") = true.
Proof.
  apply (only_discovered_tools_are_called (sample_runtime sample_table)
           [add_numbers] "prompt"
           (sample_turn "add" (decision_text "add_numbers" "{}"))
           (JStr "http://localhost:8001") (JStr "add_numbers") (JObj [])).
  vm_compute. apply list_elem_of_further, list_elem_of_here.
Defined.

Lemma find_tool_total tools tool_name server_url :
  Forall (λ x, is_Some (item "name" x) ∧ is_Some (item "_server_url" x)) tools →
  ∃ found, find_tool tools tool_name server_url = Return found.
Proof.
  intros Hkeys.
  destruct (find_tool tools tool_name server_url) as [found|e] eqn:Hfind;
    [by eexists|].
  destruct (find_tool_raises _ _ _ _ Hfind) as (t & Hin & Hmissing).
  rewrite Forall_forall in Hkeys. destruct (Hkeys t Hin) as [[? Hn] [? Hu]].
  destruct Hmissing; congruence.
Qed.






Lemma find_tool_unmatched tools tool_name server_url :
  Forall (λ x, is_Some (item "name" x) ∧ is_Some (item "_server_url" x)) tools →
  Forall (λ x, matches x tool_name server_url = false) tools →
  find_tool tools tool_name server_url = Return None.
Proof.
  intros Hkeys Hnone.
  destruct (find_tool_total tools tool_name server_url Hkeys) as [[t|] Hfind];
    [|done].
  destruct (find_tool_split _ _ _ _ Hfind) as (before & after & -> & Hm & _).
  rewrite Forall_forall in Hnone.
  rewrite Hnone in Hm; [done|]. apply elem_of_app. right. by left.
Qed.

(** X24. A complete "use_tool" decision that names no discovered tool
    on the server it names, the right name on another server included,
    is answered with "tool not found": nothing is validated or called,
    and the loop goes on. *)
Theorem unmatched_tool_is_not_found rt tools system_prompt t raw d :
  is_quit rt (strip rt (line t)) = false →
  call_llm rt (llm t) = Return (JStr raw) →
  json_loads rt raw = Return (JObj d) →
  dict_get "action" d = Some (JStr "use_tool") →
  truthy (get_or_none "tool" d) = true →
  truthy (get_or_none "server_url" d) = true →
  Forall (λ x, is_Some (item "name" x) ∧ is_Some (item "_server_url" x)) tools →
  Forall (λ x, matches x (get_or_none "tool" d) (get_or_none "server_url" d) = false)
    tools →
  agent_turn rt tools system_prompt t =
    ([AskModel system_prompt (strip rt (line t)) 0; Say ToolNotFound], Continue).
Proof.
  intros Hquit Hllm Hloads Haction Htool Hurl Hkeys Hnone.
  rewrite (turn_use_tool _ _ _ _ _ _ Hquit Hllm Hloads Haction).
  unfold use_tool. rewrite Htool, Hurl. simpl.
  by rewrite (find_tool_unmatched _ _ _ Hkeys Hnone).
Qed.

Lemma unmatched_tool_is_not_found_witness :
  agent_turn (sample_runtime more_texts) [add_numbers; add_numbers_elsewhere] "prompt"
    (sample_turn "add"
       (decision_text_on "http://localhost:8002" "add_numbers" "{}")) =
  ([AskModel "prompt" "add" 0; Say ToolNotFound], Continue).
Proof.
  apply (unmatched_tool_is_not_found (sample_runtime more_texts)
           [add_numbers; add_numbers_elsewhere] "prompt"
           (sample_turn "add"
              (decision_text_on "http://localhost:8002" "add_numbers" "{}"))
           (decision_text_on "http://localhost:8002" "add_numbers" "{}")
           [("action", JStr "use_tool"); ("tool", JStr "add_numbers");
            ("server_url", JStr "http://localhost:8002"); ("args", JObj [])]).
  - vm_compute. reflexivity.
  - vm_compute. reflexivity.
  - vm_compute. reflexivity.
  - reflexivity.
  - reflexivity.
  - reflexivity.
  - apply Forall_cons. split; [split; by eexists|].
    apply Forall_cons. split; [split; by eexists|apply Forall_nil_2].
  - apply Forall_cons. split; [vm_compute; reflexivity|].
    apply Forall_cons. split; [vm_compute; reflexivity|apply Forall_nil_2].
Defined.

(** X25. When the validator raises something other than
    [ValidationError] on the schema of the tool that was found, a schema
    it cannot use, nothing catches it: the session ends there, before
    any call to the tool. *)
Theorem unusable_schema_ends_session
    rt tools system_prompt t raw d tool schema e rest :
  is_quit rt (strip rt (line t)) = false →
  call_llm rt (llm t) = Return (JStr raw) →
  json_loads rt raw = Return (JObj d) →
  dict_get "action" d = Some (JStr "use_tool") →
  truthy (get_or_none "tool" d) = true →
  truthy (get_or_none "server_url" d) = true →
  find_tool tools (get_or_none "tool" d) (get_or_none "server_url" d)
    = Return (Some tool) →
  get_default tool "args_schema" default_args_schema = Return schema →
  validate rt (default (JObj []) (dict_get "args" d)) schema = Raise e →
  (∀ m, e ≠ ValidationError m) →
  session rt tools system_prompt (t :: rest) =
    ([AskModel system_prompt (strip rt (line t)) 0], Crashed e).
Proof.
  intros Hquit Hllm Hloads Haction Htool Hurl Hfind Hschema Hval Hother.
  simpl. rewrite (turn_use_tool _ _ _ _ _ _ Hquit Hllm Hloads Haction).
  unfold use_tool. rewrite Htool, Hurl, Hfind. simpl.
  rewrite (find_tool_found _ _ _ _ Hfind). simpl.
  unfold validate_args_against_tool. rewrite Hschema, Hval.
  destruct e as [ | | | | | | | | |msg| | | ]; try done. by destruct (Hother msg).
Qed.

Lemma unusable_schema_ends_session_witness :
  session (sample_runtime more_texts) [broken_schema_tool] "prompt"
    [sample_turn "break" (decision_text_on "http://localhost:8001" "broken" "{}");
     sample_turn "more" "unused"] =
  ([AskModel "prompt" "break" 0], Crashed SchemaError).
Proof.
  apply (unusable_schema_ends_session (sample_runtime more_texts)
           [broken_schema_tool] "prompt"
           (sample_turn "break"
              (decision_text_on "http://localhost:8001" "broken" "{}"))
           (decision_text_on "http://localhost:8001" "broken" "{}")
           [("action", JStr "use_tool"); ("tool", JStr "broken");
            ("server_url", JStr "http://localhost:8001"); ("args", JObj [])]
           broken_schema_tool (JInt 5)).
  - vm_compute. reflexivity.
  - vm_compute. reflexivity.
  - vm_compute. reflexivity.
  - reflexivity.
  - reflexivity.
  - reflexivity.
  - vm_compute. reflexivity.
  - reflexivity.
  - reflexivity.
  - intros m. discriminate.
Defined.
